(** * Excel Sheet Renamer: the renaming engine of [sheet.py]

    A shallow embedding of the part of [sheet.py] that proposes new sheet
    names, renames the sheets of a workbook and rewrites the sheet references
    of its formulas, with the properties the specification states about it.

    Modelling conventions.
    - A Python [str] is a [string]; its characters are those of [ascii].
    - A Python [dict] is an association list in insertion order: assigning to
      a key already present overwrites its value where the key stands.
    - An exception is a value of [exn]; code that may raise returns a sum, or
      the state it reached together with the exception.
    - The workbook object of openpyxl is the list of its worksheets (a
      workbook without chart sheets).  Assigning to [sheet.title] runs the
      setter of openpyxl, which checks the title and may change it;
      assigning to [cell.value] is a field update and nothing else.
    - A table of pandas is the row under each of its index labels. *)

From Stdlib Require Import String Ascii List Bool Arith ZArith Lia.
From Stdlib Require Import Numbers.DecimalString.
From Stdlib Require DecimalNat DecimalFacts.
Import ListNotations.

Open Scope list_scope.
Open Scope string_scope.

(** ** Strings as Python uses them *)

(** [s[:n]]: the first [n] characters, the whole of [s] when it is shorter. *)
Definition slice_to (n : nat) (s : string) : string := substring 0 n s.


(** [c in s] for a one-character [c]. *)
Fixpoint contains (c : ascii) (s : string) : bool :=
  match s with
  | EmptyString => false
  | String c' s' => if Ascii.eqb c' c then true else contains c s'
  end.

(** [s.lstrip("'")], then the same from the right end: [s.strip("'")]. *)
Fixpoint lstrip_quote (s : string) : string :=
  match s with
  | EmptyString => EmptyString
  | String c s' => if Ascii.eqb c "'" then lstrip_quote s' else s
  end.

Fixpoint rstrip_quote (s : string) : string :=
  match s with
  | EmptyString => EmptyString
  | String c s' =>
      match rstrip_quote s' with
      | EmptyString => if Ascii.eqb c "'" then EmptyString else String c EmptyString
      | r => String c r
      end
  end.

Definition strip_quote (s : string) : string := rstrip_quote (lstrip_quote s).

(** [n] straight quotes. *)
Fixpoint quotes (n : nat) : string :=
  match n with
  | O => EmptyString
  | S n' => String "'" (quotes n')
  end.

(** [s.startswith(p)], returning what follows [p]. *)
Fixpoint strip_prefix (p s : string) : option string :=
  match p with
  | EmptyString => Some s
  | String c p' =>
      match s with
      | EmptyString => None
      | String c' s' => if Ascii.eqb c c' then strip_prefix p' s' else None
      end
  end.

(** [f"{n:02d}"]: decimal, padded with zeros on the left to two characters
    at least. *)
Definition decimal (n : nat) : string := NilEmpty.string_of_uint (Nat.to_uint n).

Definition format_02d (n : nat) : string :=
  let d := decimal n in
  if Nat.ltb (String.length d) 2 then "0" ++ d else d.

(** The digit of a number below ten. *)
Definition digit (n : nat) : ascii := ascii_of_nat (48 + n).

(** ** Dictionaries *)

Definition dict : Type := list (string * string).

Fixpoint dict_get (d : dict) (k : string) : option string :=
  match d with
  | [] => None
  | (k', v) :: d' => if String.eqb k' k then Some v else dict_get d' k
  end.

(** [d[k] = v] *)
Fixpoint dict_set (d : dict) (k v : string) : dict :=
  match d with
  | [] => [(k, v)]
  | (k', v') :: d' =>
      if String.eqb k' k then (k', v) :: d' else (k', v') :: dict_set d' k v
  end.

(** [d.keys()], in insertion order. *)
Definition dict_keys (d : dict) : list string := map fst d.

(** [d.get(k, default)] *)
Definition dict_get_default (d : dict) (k default : string) : string :=
  match dict_get d k with
  | Some v => v
  | None => default
  end.

(** ** The proposed names (lines 96-101) *)

(** One row of the table the user edits. *)
Record df_row : Type := mk_row {
  Original_Name : string;
  New_Name : option string   (* [None]: a cell left empty in the editor *)
}.

Definition DataFrame : Type := list df_row.

(** The body of the loop at lines 97-100 for the row labelled [idx]. *)
Definition default_new_name (prefix : string) (idx : nat) (old_name : string) : string :=
  let default_new_name :=
    match prefix with
    | EmptyString => old_name
    | _ => prefix ++ "." ++ format_02d (idx + 1) ++ " " ++ old_name
    end in
  slice_to 31 default_new_name.

Fixpoint default_rows (prefix : string) (idx : nat) (sheet_names : list string) : DataFrame :=
  match sheet_names with
  | [] => []
  | old_name :: rest =>
      mk_row old_name (Some (default_new_name prefix idx old_name))
        :: default_rows prefix (S idx) rest
  end.

(** The table of lines 77-80 after the loop of lines 96-101 has filled its
    New Name column. *)
Definition build_default_mapping (sheet_names : list string) (prefix : string) : DataFrame :=
  default_rows prefix 0 sheet_names.

(** ** The reference pattern (lines 144-145)

    [sheet_ref_regex] is [('?(k1|k2|...)'?)!] over the escaped keys of the
    mapping.  Python's matcher backtracks: at a position it takes the first
    choice of each optional quote and of the alternation, in the order the
    pattern lists them, that lets the rest of the pattern match.  Each piece
    of the pattern is a function of the text still to read and of what to do
    with the rest once the piece has matched. *)

(** The branches of [sheet_names_pattern].  [re.escape] makes every key a
    literal, so a branch is the key itself; joining no key at all leaves the
    empty pattern, one branch that matches the empty text. *)
Definition sheet_names_pattern (keys : list string) : list string :=
  match keys with
  | [] => [""]
  | _ => keys
  end.

(** What one match of the pattern holds: group 1 is
    [open_quote ++ group2 ++ close_quote], the match is group 1 and ["!"]. *)
Record ref_match : Type := mk_match {
  open_quote : string;
  group2 : string;
  close_quote : string;
  after : string   (* the text that follows the match *)
}.

Definition group1 (m : ref_match) : string :=
  open_quote m ++ group2 m ++ close_quote m.

Definition matched_span (m : ref_match) : string := group1 m ++ "!".

Definition or_else {A : Type} (first second : option A) : option A :=
  match first with
  | Some r => Some r
  | None => second
  end.

(** ['?]: greedy, the quote is tried before its absence. *)
Definition opt_quote {A : Type} (s : string) (k : string -> string -> option A) : option A :=
  or_else
    match s with
    | EmptyString => None
    | String c s' => if Ascii.eqb c "'" then k "'" s' else None
    end
    (k "" s).

(** [(k1|k2|...)]: the branches in order. *)
Fixpoint alternation {A : Type} (branches : list string) (s : string)
    (k : string -> string -> option A) : option A :=
  match branches with
  | [] => None
  | b :: bs =>
      or_else
        match strip_prefix b s with
        | Some s' => k b s'
        | None => None
        end
        (alternation bs s k)
  end.

(** [!] *)
Definition bang {A : Type} (s : string) (k : string -> option A) : option A :=
  match s with
  | EmptyString => None
  | String c s' => if Ascii.eqb c "!" then k s' else None
  end.

(** [sheet_ref_regex.match] at the start of [s]. *)
Definition regex_match (branches : list string) (s : string) : option ref_match :=
  opt_quote s (fun q1 s1 =>
  alternation branches s1 (fun name s2 =>
  opt_quote s2 (fun q2 s3 =>
  bang s3 (fun s4 =>
  Some (mk_match q1 name q2 s4))))).

(** [regex.sub(repl, s)]: from left to right, a match is replaced and the scan
    goes on after it; where nothing matches the character is kept.  A match is
    never empty (it ends in ["!"]), so [S (length s)] rounds are enough. *)
Fixpoint sub_loop (fuel : nat) (branches : list string) (repl : ref_match -> string)
    (s : string) : string :=
  match fuel with
  | O => s
  | S fuel' =>
      match regex_match branches s with
      | Some m => repl m ++ sub_loop fuel' branches repl (after m)
      | None =>
          match s with
          | EmptyString => EmptyString
          | String c s' => String c (sub_loop fuel' branches repl s')
          end
      end
  end.

Definition sub (branches : list string) (repl : ref_match -> string) (s : string) : string :=
  sub_loop (S (String.length s)) branches repl s.

(** ** Rewriting a formula (lines 148-158) *)

(** The characters of line 154 beside the space. *)
Definition special_characters : list ascii := ["-"; "+"; "("; ")"; "["; "]"]%char.

(** The test of line 154. *)
Definition needs_quotes (new_sheet_name : string) : bool :=
  contains " " new_sheet_name
  || existsb (fun c => contains c new_sheet_name) special_characters.

Definition replacer (mapping : dict) (m : ref_match) : string :=
  let sheet_ref := group1 m in
  let sheet_name := strip_quote sheet_ref in
  let new_sheet_name := dict_get_default mapping sheet_name sheet_name in
  let new_sheet_name :=
    if needs_quotes new_sheet_name then "'" ++ new_sheet_name ++ "'"
    else new_sheet_name in
  new_sheet_name ++ "!".

(** [sheet_ref_regex] is a variable of the enclosing handler; it is an
    argument here. *)
Definition replace_sheet_names_in_formula (sheet_ref_regex : list string)
    (formula : string) (mapping : dict) : string :=
  sub sheet_ref_regex (replacer mapping) formula.

(** The pattern the handler compiles from a mapping, and the rewriting of a
    formula with it: the specification's [rewrite]. *)
Definition sheet_ref_regex (mapping : dict) : list string :=
  sheet_names_pattern (dict_keys mapping).

Definition rewrite_formula (formula : string) (mapping : dict) : string :=
  replace_sheet_names_in_formula (sheet_ref_regex mapping) formula mapping.

(** ** The workbook *)

(** What [cell.value] may hold. *)
Inductive cell_value : Type :=
  | VNone
  | VStr (s : string)
  | VNum (n : Z)
  | VBool (b : bool).

Record Cell : Type := mk_cell {
  coordinate : string;
  data_type : string;    (* ["f"] for a formula, ["s"], ["n"], ["b"], ... *)
  value : cell_value;
  style : nat
}.

Record Sheet : Type := mk_sheet {
  title : string;
  sheet_state : string;  (* stands for every attribute of a sheet but its title and cells *)
  rows : list (list Cell)
}.

(** [wb.worksheets], in the order of the workbook. *)
Definition Workbook : Type := list Sheet.

Definition set_title (sheet : Sheet) (new_title : string) : Sheet :=
  mk_sheet new_title (sheet_state sheet) (rows sheet).

Definition set_rows (sheet : Sheet) (new_rows : list (list Cell)) : Sheet :=
  mk_sheet (title sheet) (sheet_state sheet) new_rows.

Definition set_value (cell : Cell) (v : cell_value) : Cell :=
  mk_cell (coordinate cell) (data_type cell) v (style cell).

(** [if v:] *)
Definition truthy (v : cell_value) : bool :=
  match v with
  | VNone => false
  | VStr s => negb (String.eqb s "")
  | VNum n => negb (Z.eqb n 0)
  | VBool b => b
  end.

(** ** Exceptions and loops over mutable objects *)

Inductive exn : Type :=
  | KeyError
  | TypeError
  | ValueError.

(** [for x in l: body(x)] where [body] mutates [x] and may raise: the objects
    as the loop leaves them, and the exception that stopped it, if any.  The
    objects after the one that raised are as they were. *)
Fixpoint for_each {A : Type} (body : A -> A * option exn) (l : list A) : list A * option exn :=
  match l with
  | [] => ([], None)
  | x :: rest =>
      match body x with
      | (x', Some e) => (x' :: rest, Some e)
      | (x', None) =>
          let (rest', r) := for_each body rest in
          (x' :: rest', r)
      end
  end.

(** ** The export handler (lines 129-168, and again lines 203-239) *)

(** The table the editor returns: the row under each index label, [None]
    for a label the table has not.  Only labels that are numbers matter to
    the handler. *)
Definition EditedFrame : Type := nat -> option df_row.

(** A table whose rows are labelled 0, 1, 2, ... in order: the table a file
    starts with, and what the editor returns as long as no row is deleted. *)
Definition range_index (rows : DataFrame) : EditedFrame :=
  fun label => nth_error rows label.

(** A table given with its labels, as the editor returns it after rows were
    deleted: the rows left keep their labels. *)
Fixpoint with_labels (rows : list (nat * df_row)) : EditedFrame :=
  fun label =>
    match rows with
    | [] => None
    | (l, row) :: rest => if Nat.eqb l label then Some row else with_labels rest label
    end.

(** Lines 132-137: [sheet_name_mapping], from the sheets and the New Name
    column of the edited table; [edited_df.at[idx, 'New Name']] reads the row
    labelled [idx] and raises [KeyError] when there is none.  The workbook is
    only read. *)
Fixpoint collect_names (worksheets : list Sheet) (idx : nat) (edited_df : EditedFrame)
    (sheet_name_mapping : dict) : dict + exn :=
  match worksheets with
  | [] => inl sheet_name_mapping
  | sheet :: rest =>
      let old_name := title sheet in
      match edited_df idx with
      | None => inr KeyError
      | Some row =>
          match New_Name row with
          | None => inr TypeError
          | Some new_name =>
              let new_name := slice_to 31 new_name in
              collect_names rest (S idx) edited_df (dict_set sheet_name_mapping old_name new_name)
          end
      end
  end.

(** *** The setter of [sheet.title]

    Line 141 assigns through the setter of openpyxl.  The setter raises
    [ValueError] for an empty title and for a title with one of the
    characters [\ * ? : / [ ]]; it stores the value as it is when it is the
    title the sheet has; otherwise it passes the value through
    [avoid_duplicate_name] with the titles of the workbook at that moment,
    and stores the result.  A title of more than 31 characters is stored
    with a warning. *)

Definition invalid_title_characters : list ascii :=
  ["\"; "*"; "?"; ":"; "/"; "["; "]"]%char.

Definition has_invalid_character (value : string) : bool :=
  existsb (fun c => contains c value) invalid_title_characters.

(** [s.lower()]: the capital letters among the characters 0 to 255 are A to
    Z and the characters 192 to 222 but 215. *)
Definition lower_char (c : ascii) : ascii :=
  let n := nat_of_ascii c in
  if (Nat.leb 65 n && Nat.leb n 90)
     || (Nat.leb 192 n && Nat.leb n 222 && negb (Nat.eqb n 215))
  then ascii_of_nat (n + 32)
  else c.

Fixpoint lower (s : string) : string :=
  match s with
  | EmptyString => EmptyString
  | String c s' => String (lower_char c) (lower s')
  end.

(** [[n for n in names if n.lower() == value.lower()]] is not empty. *)
Definition is_title_of (names : list string) (value : string) : bool :=
  existsb (fun n => String.eqb (lower n) (lower value)) names.

(** A way of numbering, for examples: the value with 1 after it. *)
Definition renumber_example (names : list string) (value : string) : string :=
  value ++ "1".

Section Openpyxl.

(** What [avoid_duplicate_name] makes of a value that is, case apart, one of
    the names: the value with a number after it.  How openpyxl chooses the
    number is not part of the program; it is an argument here. *)
Variable renumber : list string -> string -> string.

Definition avoid_duplicate_name (names : list string) (value : string) : string :=
  if is_title_of names value then renumber names value else value.

(** The setter, for a sheet titled [current] in a workbook whose sheets are
    titled [sheetnames]: the title it stores, or the exception it raises. *)
Definition title_setter (sheetnames : list string) (current value : string) : string + exn :=
  if String.eqb value "" then inr ValueError
  else if has_invalid_character value then inr ValueError
  else if String.eqb current value then inl value
  else inl (avoid_duplicate_name sheetnames value).

(** Lines 140-141, from the sheet at the head of [worksheets] on; [renamed]
    holds the titles of the sheets before it, as the loop left them.  The
    lookup raises [KeyError] for a title that is no key. *)
Fixpoint title_loop (sheet_name_mapping : dict) (renamed : list string)
    (worksheets : list Sheet) : list Sheet * option exn :=
  match worksheets with
  | [] => ([], None)
  | sheet :: rest =>
      match dict_get sheet_name_mapping (title sheet) with
      | None => (worksheets, Some KeyError)
      | Some new_title =>
          match title_setter (renamed ++ map title worksheets)%list (title sheet) new_title with
          | inr e => (worksheets, Some e)
          | inl stored =>
              let (rest', r) := title_loop sheet_name_mapping (renamed ++ [stored])%list rest in
              (set_title sheet stored :: rest', r)
          end
      end
  end.

Definition update_titles (sheet_name_mapping : dict) (wb : Workbook) : Workbook * option exn :=
  title_loop sheet_name_mapping [] wb.

(** Lines 164-168, for one cell.  [sub] raises [TypeError] on a value that is
    not a string. *)
Definition update_cell (regex : list string) (sheet_name_mapping : dict) (cell : Cell)
    : Cell * option exn :=
  if String.eqb (data_type cell) "f" then
    let original_formula := value cell in
    if truthy original_formula then
      match original_formula with
      | VStr formula =>
          let new_formula := replace_sheet_names_in_formula regex formula sheet_name_mapping in
          (set_value cell (VStr new_formula), None)
      | _ => (cell, Some TypeError)
      end
    else (cell, None)
  else (cell, None).

(** Lines 162-168, for one sheet. *)
Definition update_sheet (regex : list string) (sheet_name_mapping : dict) (sheet : Sheet)
    : Sheet * option exn :=
  let (rows', r) := for_each (for_each (update_cell regex sheet_name_mapping)) (rows sheet) in
  (set_rows sheet rows', r).

Definition update_formulas (regex : list string) (sheet_name_mapping : dict) (wb : Workbook)
    : Workbook * option exn :=
  for_each (update_sheet regex sheet_name_mapping) wb.

(** How the [try] block ends: the workbook is saved, or an exception reaches
    [except] and the workbook is dropped in the state it had then. *)
Inductive outcome : Type :=
  | Saved (wb : Workbook)
  | Failed (e : exn) (wb : Workbook).

Definition workbook_of (o : outcome) : Workbook :=
  match o with
  | Saved wb => wb
  | Failed _ wb => wb
  end.

(** The [try] block, from the loaded workbook to the one handed to [wb.save]:
    the specification's [rename]. *)
Definition export_workbook (wb : Workbook) (edited_df : EditedFrame) : outcome :=
  match collect_names wb 0 edited_df [] with
  | inr e => Failed e wb
  | inl sheet_name_mapping =>
      match update_titles sheet_name_mapping wb with
      | (wb1, Some e) => Failed e wb1
      | (wb1, None) =>
          let sheet_ref_regex := sheet_names_pattern (dict_keys sheet_name_mapping) in
          match update_formulas sheet_ref_regex sheet_name_mapping wb1 with
          | (wb2, Some e) => Failed e wb2
          | (wb2, None) => Saved wb2
          end
      end
  end.

(** ** Workbooks and tables used as examples *)

Definition plain (coord : string) (n : Z) : Cell := mk_cell coord "n" (VNum n) 0.
Definition formula (coord text : string) : Cell := mk_cell coord "f" (VStr text) 0.

Definition wb_two_sheets : Workbook :=
  [ mk_sheet "Data" "visible" [[plain "A1" 1; plain "B1" 2]];
    mk_sheet "Summary" "visible" [[formula "A1" "=SUM(Data!A1:B1)"; plain "B1" 7]] ].

Definition df_two_rows : EditedFrame :=
  range_index [ mk_row "Data" (Some "Raw Data"); mk_row "Summary" (Some "Total") ].

Definition mapping_two : dict := [("Data", "Raw Data"); ("Summary", "Total")].

Definition wb_one_sheet : Workbook :=
  [ mk_sheet "A" "visible" [[formula "A1" "=A!B1+1"; plain "B1" 3]] ].

Definition rows_extra_row : DataFrame :=
  [ mk_row "A" (Some "X"); mk_row "B" (Some "Y") ].

Definition df_extra_row : EditedFrame := range_index rows_extra_row.

(** A table with a name the setter refuses. *)
Definition df_bad_name : EditedFrame :=
  range_index [ mk_row "Data" (Some "Good"); mk_row "Summary" (Some "Bad/Name") ].

Definition mapping_bad_name : dict := [("Data", "Good"); ("Summary", "Bad/Name")].

(** A table from which the row of the second sheet was deleted. *)
Definition df_row_deleted : EditedFrame :=
  with_labels [ (0, mk_row "Data" (Some "Raw Data")); (2, mk_row "Extra" None) ].



Definition name_of_32 : string := "ABCDEFGHIJKLMNOPQRSTUVWXYZ012345".

(** Two sheets, the title of one a prefix of the title of the other, and a
    formula that refers to the longer one. *)
Definition wb_totals : Workbook :=
  [ mk_sheet "Total" "visible" [[plain "A1" 1]];
    mk_sheet "Total!" "visible" [[plain "A1" 2]];
    mk_sheet "Report" "visible" [[formula "A1" "='Total!'!A1"]] ].

Definition df_totals : EditedFrame :=
  range_index [ mk_row "Total" (Some "Sum"); mk_row "Total!" (Some "Check");
                mk_row "Report" (Some "Report") ].

Definition mapping_totals : dict :=
  [("Total", "Sum"); ("Total!", "Check"); ("Report", "Report")].

(** ** The specification's words *)

(** A name holds a space or one of [- + ( ) [ ]]. *)
Definition has_special (name : string) : Prop :=
  exists c, In c (list_ascii_of_string name)
            /\ (c = " " \/ c = "-" \/ c = "+" \/ c = "(" \/ c = ")" \/ c = "[" \/ c = "]")%char.

(** Steps 1 and 2 of the rewriter: the bare name of a matched reference,
    looked up in the mapping, itself when the mapping has no such key. *)
Definition replacement_name (mapping : dict) (q1 name q2 : string) : string :=
  let bare := strip_quote (q1 ++ name ++ q2) in
  dict_get_default mapping bare bare.

(** [rewritten branches mapping formula out]: [out] is [formula] with every
    reference the matcher finds, scanning from the left, replaced by its
    replacement name and ["!"], the name between quotes exactly when it has a
    special character, and every other character kept. *)
Inductive rewritten (branches : list string) (mapping : dict) : string -> string -> Prop :=
  | rw_end :
      rewritten branches mapping "" ""
  | rw_keep (c : ascii) (s t : string) :
      regex_match branches (String c s) = None ->
      rewritten branches mapping s t ->
      rewritten branches mapping (String c s) (String c t)
  | rw_quoted (q1 name q2 rest t : string) :
      regex_match branches (q1 ++ name ++ q2 ++ "!" ++ rest) = Some (mk_match q1 name q2 rest) ->
      has_special (replacement_name mapping q1 name q2) ->
      rewritten branches mapping rest t ->
      rewritten branches mapping (q1 ++ name ++ q2 ++ "!" ++ rest)
        ("'" ++ replacement_name mapping q1 name q2 ++ "'" ++ "!" ++ t)
  | rw_bare (q1 name q2 rest t : string) :
      regex_match branches (q1 ++ name ++ q2 ++ "!" ++ rest) = Some (mk_match q1 name q2 rest) ->
      ~ has_special (replacement_name mapping q1 name q2) ->
      rewritten branches mapping rest t ->
      rewritten branches mapping (q1 ++ name ++ q2 ++ "!" ++ rest)
        (replacement_name mapping q1 name q2 ++ "!" ++ t).

(** A quote of the pattern: absent or one straight quote. *)
Definition is_quote (q : string) : Prop := q = "" \/ q = "'".


(** One of the characters [\ * ? : / [ ]]. *)
Definition forbidden_in_title (c : ascii) : bool :=
  Ascii.eqb c "\" || Ascii.eqb c "*" || Ascii.eqb c "?" || Ascii.eqb c ":"
  || Ascii.eqb c "/" || Ascii.eqb c "[" || Ascii.eqb c "]".

(** A valid title: not empty and without any of [\ * ? : / [ ]]. *)
Definition valid_title (value : string) : bool :=
  negb (String.eqb value "")
  && negb (existsb forbidden_in_title (list_ascii_of_string value)).




(** A name begins or ends with a straight quote. *)
Definition quote_at_an_end (name : string) : Prop :=
  (exists t, name = "'" ++ t) \/ (exists t, name = t ++ "'").

(** Every reference the matcher finds in the text, scanning from the left,
    is written as the rewriter writes a name mapped to itself: what stands
    before its ["!"] is a name that neither begins nor ends with a quote,
    between a pair of quotes when the name has a space or one of
    [- + ( ) [ ]], as it is otherwise. *)
Inductive settled (branches : list string) : string -> Prop :=
  | settled_end :
      settled branches ""
  | settled_keep (c : ascii) (s : string) :
      regex_match branches (String c s) = None ->
      settled branches s ->
      settled branches (String c s)
  | settled_ref (s : string) (m : ref_match) (name : string) :
      regex_match branches s = Some m ->
      ~ quote_at_an_end name ->
      (has_special name /\ group1 m = "'" ++ name ++ "'")
      \/ (~ has_special name /\ group1 m = name) ->
      settled branches (after m) ->
      settled branches s.

(** What renaming may change in a cell: nothing but the text of a formula. *)
Definition cell_frame (c c' : Cell) : Prop :=
  coordinate c' = coordinate c
  /\ data_type c' = data_type c
  /\ style c' = style c
  /\ (data_type c <> "f" -> value c' = value c)
  /\ (value c' = value c
      \/ exists text text', value c = VStr text /\ value c' = VStr text').

(** What renaming may change in a sheet: its title, and its cells as
    [cell_frame] allows, row by row and cell by cell. *)
Definition sheet_frame (s s' : Sheet) : Prop :=
  sheet_state s' = sheet_state s
  /\ Forall2 (Forall2 cell_frame) (rows s) (rows s').

(** The table has no name for the sheet at position [i]: no row labelled
    [i], or a row whose New Name is empty. *)
Definition no_name_at (edited_df : EditedFrame) (i : nat) : Prop :=
  match edited_df i with
  | None => True
  | Some row => New_Name row = None
  end.

(** The lengths of the names go down (not strictly) along the list. *)
Fixpoint by_descending_length (names : list string) : Prop :=
  match names with
  | [] => True
  | n :: rest =>
      Forall (fun n' => String.length n' <= String.length n) rest
      /\ by_descending_length rest
  end.

(** Every key is mapped to itself. *)
Definition identity_mapping (mapping : dict) : Prop :=
  forall k, In k (dict_keys mapping) -> dict_get mapping k = Some k.

(** A formula cell holds text, or nothing (what openpyxl loads). *)
Definition formula_is_text (c : Cell) : Prop :=
  data_type c = "f" -> truthy (value c) = true -> exists text, value c = VStr text.

Definition formulas_are_text (wb : Workbook) : Prop :=
  Forall (fun sheet => Forall (Forall formula_is_text) (rows sheet)) wb.

(** A mapping that swaps two names. *)
Definition mapping_swap : dict := [("A", "B"); ("B", "A")].

(** ** The files of a session (lines 59-70, 114-123, 190-261)

    The codec of openpyxl is not part of the program: reading the bytes of a
    file and writing a workbook are arguments, [None] when they raise. *)

Section Codec.
Variable bytes : Type.
Variable load_workbook : bytes -> option Workbook.
Variable save : Workbook -> option bytes.

(** One element of [st.session_state.file_data]. *)
Record file_entry : Type := mk_entry {
  file_name : string;
  file_bytes : bytes;
  prefix : string;
  sheet_data : EditedFrame
}.

(** [l[i]["prefix"] = p; l[i]["sheet_data"] = d] for [i] within the list. *)
Fixpoint set_prefix_and_table (l : list file_entry) (i : nat) (p : string) (d : EditedFrame)
    : list file_entry :=
  match l, i with
  | [], _ => []
  | e :: rest, O => mk_entry (file_name e) (file_bytes e) p d :: rest
  | e :: rest, S i' => e :: set_prefix_and_table rest i' p d
  end.

(** Lines 114-123, for the file at position [i] of the upload, whose name,
    bytes, prefix and edited table make [current]. *)
Definition record_file (file_data : list file_entry) (i : nat) (current : file_entry)
    : list file_entry :=
  if Nat.leb (List.length file_data) i then (file_data ++ [current])%list
  else set_prefix_and_table file_data i (prefix current) (sheet_data current).

(** The loop of line 59 as far as [file_data] goes: a file that cannot be
    read is passed over (line 70), the others are recorded. *)
Fixpoint upload_loop (uploaded_files : list file_entry) (i : nat)
    (file_data : list file_entry) : list file_entry :=
  match uploaded_files with
  | [] => file_data
  | current :: rest =>
      match load_workbook (file_bytes current) with
      | None => upload_loop rest (S i) file_data
      | Some _ => upload_loop rest (S i) (record_file file_data i current)
      end
  end.

(** The [try] block for one file (lines 128-175 under the button of the
    file, lines 202-247 in the loop over all files): the bytes written for
    it, or [None] when anything raised. *)
Definition process_file (data : file_entry) : option bytes :=
  match load_workbook (file_bytes data) with
  | None => None
  | Some wb =>
      match export_workbook wb (sheet_data data) with
      | Saved wb' => save wb'
      | Failed _ _ => None
      end
  end.

(** Lines 197-250: the entries of the archive and [all_files_processed]. *)
Fixpoint export_all_loop (file_data : list file_entry) (zip_file : list (string * bytes))
    (all_files_processed : bool) : list (string * bytes) * bool :=
  match file_data with
  | [] => (zip_file, all_files_processed)
  | data :: rest =>
      match process_file data with
      | Some output =>
          export_all_loop rest (zip_file ++ [(file_name data, output)])%list
            all_files_processed
      | None => export_all_loop rest zip_file false
      end
  end.

(** Lines 190-261: the archive handed to the download button, if any. *)
Definition export_all (file_data : list file_entry) : option (list (string * bytes)) :=
  match export_all_loop file_data [] true with
  | (zip_file, true) => Some zip_file
  | (_, false) => None
  end.
End Codec.

Arguments mk_entry {bytes}.
Arguments file_name {bytes}.
Arguments file_bytes {bytes}.
Arguments prefix {bytes}.
Arguments sheet_data {bytes}.
Arguments set_prefix_and_table {bytes}.
Arguments record_file {bytes}.
Arguments upload_loop {bytes}.
Arguments process_file {bytes}.
Arguments export_all_loop {bytes}.
Arguments export_all {bytes}.

(** Whether the bytes of a file can be read (lines 64-70). *)
Definition readable {bytes : Type} (load_workbook : bytes -> option Workbook)
    (f : file_entry bytes) : bool :=
  match load_workbook (file_bytes f) with
  | Some _ => true
  | None => false
  end.

(** The entry of line 122-123: the name and bytes stored, the prefix and
    table of the file now at the position. *)
Definition refreshed {bytes : Type} (stored current : file_entry bytes) : file_entry bytes :=
  mk_entry (file_name stored) (file_bytes stored) (prefix current) (sheet_data current).


Definition file_two : file_entry (option Workbook) :=
  mk_entry "two.xlsx" (Some wb_two_sheets) "" df_two_rows.
Definition file_totals : file_entry (option Workbook) :=
  mk_entry "totals.xlsx" (Some wb_totals) "Q1" df_totals.
Definition file_broken : file_entry (option Workbook) :=
  mk_entry "broken.xlsx" None "" (range_index []).

(** ** More of the specification's words *)

(** A name that is not empty and holds no straight quote and no ["!"]. *)
Definition plain_name (name : string) : Prop :=
  name <> "" /\ contains "'" name = false /\ contains "!" name = false.

(** A new name as [replacer] writes it. *)
Definition written_name (new_sheet_name : string) : string :=
  if needs_quotes new_sheet_name then "'" ++ new_sheet_name ++ "'" else new_sheet_name.

(** What a saved workbook holds in the place of a cell: the formula
    rewritten when the cell is a formula with a text that is not empty, the
    cell itself otherwise. *)
Definition rewritten_cell (mapping : dict) (c : Cell) : Cell :=
  if String.eqb (data_type c) "f" then
    match value c with
    | VStr text =>
        if String.eqb text "" then c
        else set_value c (VStr (rewrite_formula text mapping))
    | _ => c
    end
  else c.


(** ** Lemmas on strings *)

Lemma append_nil_r (s : string) : s ++ "" = s.
Proof. induction s as [|c s IH]; simpl; [reflexivity | now rewrite IH]. Qed.

Lemma append_assoc (a b c : string) : (a ++ b) ++ c = a ++ (b ++ c).
Proof. induction a as [|x a IH]; simpl; [reflexivity | now rewrite IH]. Qed.

Lemma append_length (a b : string) :
  String.length (a ++ b) = String.length a + String.length b.
Proof. induction a as [|x a IH]; simpl; [reflexivity | now rewrite IH]. Qed.



Lemma slice_to_all (n : nat) (s : string) :
  String.length s <= n -> slice_to n s = s.
Proof.
  unfold slice_to. revert s.
  induction n as [|n IH]; intros [|c s]; simpl; intros H; try reflexivity.
  - lia.
  - rewrite IH; [reflexivity | lia].
Qed.

(** ** Sanitizing a name *)


(** ** The default names *)

Lemma default_rows_nth (prefix : string) (sheet_names : list string) :
  forall (idx i : nat) (old_name : string),
    nth_error sheet_names i = Some old_name ->
    nth_error (default_rows prefix idx sheet_names) i
    = Some (mk_row old_name (Some (default_new_name prefix (idx + i) old_name))).
Proof.
  induction sheet_names as [|n rest IH]; intros idx [|i] old_name H;
    try discriminate.
  - injection H as ->. now rewrite Nat.add_0_r.
  - change (nth_error (default_rows prefix (S idx) rest) i
            = Some (mk_row old_name (Some (default_new_name prefix (idx + S i) old_name)))).
    replace (idx + S i) with (S idx + i) by lia.
    now apply IH.
Qed.

Lemma default_rows_length (prefix : string) (sheet_names : list string) (idx : nat) :
  List.length (default_rows prefix idx sheet_names) = List.length sheet_names.
Proof.
  revert idx. induction sheet_names as [|n rest IH]; intros idx; simpl;
    [reflexivity | now rewrite IH].
Qed.

Lemma default_new_name_no_prefix (idx : nat) (old_name : string) :
  default_new_name "" idx old_name = slice_to 31 old_name.
Proof. reflexivity. Qed.

Lemma default_new_name_prefix (prefix : string) (idx : nat) (old_name : string) :
  prefix <> "" ->
  default_new_name prefix idx old_name
  = slice_to 31 (prefix ++ "." ++ format_02d (idx + 1) ++ " " ++ old_name).
Proof. destruct prefix; [congruence | reflexivity]. Qed.

Lemma format_02d_two_digits (i : nat) :
  i < 100 ->
  format_02d i = String (digit (i / 10)) (String (digit (i mod 10)) "").
Proof.
  intros H.
  do 100 (destruct i as [|i]; [vm_compute; reflexivity|]).
  lia.
Qed.

(** C8, as the code has it.  Without a prefix the proposed name is the
    original name cut to 31 characters, hence the original name itself when it
    has at most 31.  With a prefix [P], the proposed name of the sheet at
    position [i + 1] is [P], a dot, [i + 1] in decimal padded to two digits,
    a space and the original name, the whole cut to 31 characters.  The table
    has one row per sheet, in order. *)
Theorem default_mapping_policy :
  (forall sheet_names i old_name,
      nth_error sheet_names i = Some old_name ->
      nth_error (build_default_mapping sheet_names "") i
      = Some (mk_row old_name (Some (slice_to 31 old_name))))
  /\ (forall sheet_names i old_name,
      nth_error sheet_names i = Some old_name ->
      String.length old_name <= 31 ->
      nth_error (build_default_mapping sheet_names "") i
      = Some (mk_row old_name (Some old_name)))
  /\ (forall prefix sheet_names i old_name,
      prefix <> "" ->
      nth_error sheet_names i = Some old_name ->
      nth_error (build_default_mapping sheet_names prefix) i
      = Some (mk_row old_name
                (Some (slice_to 31 (prefix ++ "." ++ format_02d (i + 1) ++ " " ++ old_name)))))
  /\ (forall i, i + 1 < 100 ->
      format_02d (i + 1)
      = String (digit ((i + 1) / 10)) (String (digit ((i + 1) mod 10)) ""))
  /\ (forall sheet_names prefix,
      List.length (build_default_mapping sheet_names prefix) = List.length sheet_names)
  /\ build_default_mapping ["Data"; "Summary"] "Q1"
     = [mk_row "Data" (Some "Q1.01 Data"); mk_row "Summary" (Some "Q1.02 Summary")]
  /\ build_default_mapping ["A"; "B"] "" = [mk_row "A" (Some "A"); mk_row "B" (Some "B")].
Proof.
  unfold build_default_mapping.
  split; [|split; [|split; [|split; [|split; [|split]]]]].
  - intros names i old H. now rewrite (default_rows_nth "" names 0 i old H).
  - intros names i old H Hlen.
    rewrite (default_rows_nth "" names 0 i old H), default_new_name_no_prefix.
    now rewrite slice_to_all.
  - intros prefix names i old Hp H.
    rewrite (default_rows_nth prefix names 0 i old H).
    now rewrite default_new_name_prefix.
  - intros i H. now apply format_02d_two_digits.
  - intros names prefix. apply default_rows_length.
  - reflexivity.
  - reflexivity.
Qed.

Lemma default_mapping_policy_witness :
  nth_error (build_default_mapping ["Data"; "Summary"] "Q1") 1
  = Some (mk_row "Summary" (Some (slice_to 31 ("Q1" ++ "." ++ format_02d 2 ++ " " ++ "Summary"))))
  /\ nth_error (build_default_mapping ["A"; "B"] "") 0 = Some (mk_row "A" (Some "A")).
Proof.
  destruct default_mapping_policy as (_ & Hshort & Hprefix & _).
  split.
  - apply (Hprefix "Q1" ["Data"; "Summary"] 1 "Summary"); [discriminate | reflexivity].
  - apply (Hshort ["A"; "B"] 0 "A"); [reflexivity | simpl; lia].
Defined.

(** C8, as stated, fails on a sheet name of 32 characters: without a prefix
    the proposed name is its first 31 characters, not the name. *)
Lemma default_mapping_cuts_long_name :
  String.length name_of_32 = 32
  /\ build_default_mapping [name_of_32] ""
     = [mk_row name_of_32 (Some "ABCDEFGHIJKLMNOPQRSTUVWXYZ01234")]
  /\ build_default_mapping [name_of_32] "" <> [mk_row name_of_32 (Some name_of_32)].
Proof.
  split; [reflexivity | split; [reflexivity | discriminate]].
Qed.

(** ** The matcher *)

Lemma strip_prefix_Some (p s s' : string) :
  strip_prefix p s = Some s' <-> s = p ++ s'.
Proof.
  revert s. induction p as [|c p IH]; intros s; simpl.
  - split; intros H; [now injection H as -> | now subst].
  - destruct s as [|c' s]; [split; discriminate|].
    destruct (Ascii.eqb_spec c c') as [->|Hne].
    + rewrite IH. split; intros H; [now subst | now injection H].
    + split; [discriminate | intros H; injection H; congruence].
Qed.

Lemma strip_prefix_app (p s : string) : strip_prefix p (p ++ s) = Some s.
Proof. now apply strip_prefix_Some. Qed.

Lemma or_else_None {A : Type} (a b : option A) :
  or_else a b = None <-> a = None /\ b = None.
Proof.
  destruct a; simpl; split; try tauto; try discriminate.
Qed.

Lemma or_else_Some {A : Type} (a b : option A) (r : A) :
  or_else a b = Some r <-> a = Some r \/ (a = None /\ b = Some r).
Proof.
  destruct a; simpl; split; try tauto.
  - intros [H|[H _]]; [exact H | discriminate].
  - intros [H|[_ H]]; [discriminate | exact H].
Qed.

(** The end of the pattern, ['?!], read after the name: it accepts a text
    exactly when the text is an optional quote, a ["!"] and the rest. *)
Lemma closing_sound (q1 name s2 : string) (m : ref_match) :
  opt_quote s2 (fun q2 s3 => bang s3 (fun s4 => Some (mk_match q1 name q2 s4))) = Some m ->
  exists q2 rest, is_quote q2 /\ s2 = q2 ++ "!" ++ rest /\ m = mk_match q1 name q2 rest.
Proof.
  unfold opt_quote, bang, is_quote. intros H.
  apply or_else_Some in H. destruct H as [H | [_ H]].
  - destruct s2 as [|c s3]; [discriminate|].
    destruct (Ascii.eqb_spec c "'") as [->|Hne]; [|discriminate].
    destruct s3 as [|c' s4]; [discriminate|].
    destruct (Ascii.eqb_spec c' "!") as [->|Hne']; [|discriminate].
    injection H as <-. exists "'", s4. auto.
  - destruct s2 as [|c s4]; [discriminate|].
    destruct (Ascii.eqb_spec c "!") as [->|Hne]; [|discriminate].
    injection H as <-. exists "", s4. auto.
Qed.

Lemma closing_complete (q1 name q2 rest : string) :
  is_quote q2 ->
  opt_quote (q2 ++ "!" ++ rest)
    (fun q2 s3 => bang s3 (fun s4 => Some (mk_match q1 name q2 s4)))
  = Some (mk_match q1 name q2 rest).
Proof. intros [-> | ->]; reflexivity. Qed.

(** The alternation takes the first branch, in the order of the list, that
    reads a prefix of the text and lets the rest of the pattern match. *)
Lemma alternation_None {A : Type} (branches : list string) (s : string)
    (k : string -> string -> option A) :
  alternation branches s k = None <->
  (forall b s', In b branches -> s = b ++ s' -> k b s' = None).
Proof.
  induction branches as [|b bs IH]; simpl.
  - split; [intros _ b s' [] | reflexivity].
  - rewrite or_else_None, IH. split.
    + intros [Hb Hbs] b' s' [<- | Hin] Hs.
      * apply strip_prefix_Some in Hs. now rewrite Hs in Hb.
      * now apply Hbs.
    + intros H. split.
      * destruct (strip_prefix b s) as [s'|] eqn:E; [|reflexivity].
        apply strip_prefix_Some in E. apply H; auto.
      * intros b' s' Hin Hs. apply H; auto.
Qed.

Lemma alternation_first {A : Type} (branches : list string) (s : string)
    (k : string -> string -> option A) (r : A) :
  alternation branches s k = Some r ->
  exists pre b post s',
    branches = (pre ++ b :: post)%list
    /\ s = b ++ s'
    /\ k b s' = Some r
    /\ (forall b' s'', In b' pre -> s = b' ++ s'' -> k b' s'' = None).
Proof.
  induction branches as [|b bs IH]; simpl; [discriminate|].
  intros H. apply or_else_Some in H. destruct H as [H | [Hnone H]].
  - destruct (strip_prefix b s) as [s'|] eqn:E; [|discriminate].
    apply strip_prefix_Some in E.
    exists [], b, bs, s'. repeat split; auto. intros b' s'' [].
  - destruct (IH H) as (pre & b0 & post & s' & -> & Hs & Hk & Hpre).
    exists (b :: pre), b0, post, s'. repeat split; auto.
    intros b' s'' [<- | Hin] Hs'.
    + apply strip_prefix_Some in Hs'. now rewrite Hs' in Hnone.
    + now apply Hpre with (1 := Hin).
Qed.

(** What a match is made of. *)
Lemma regex_match_sound (branches : list string) (s : string) (m : ref_match) :
  regex_match branches s = Some m ->
  s = open_quote m ++ group2 m ++ close_quote m ++ "!" ++ after m
  /\ In (group2 m) branches
  /\ is_quote (open_quote m)
  /\ is_quote (close_quote m).
Proof.
  unfold regex_match, opt_quote at 1. intros H.
  assert (Hbody : forall q1 s1,
             alternation branches s1 (fun name s2 =>
               opt_quote s2 (fun q2 s3 => bang s3 (fun s4 =>
                 Some (mk_match q1 name q2 s4)))) = Some m ->
             s1 = group2 m ++ close_quote m ++ "!" ++ after m
             /\ In (group2 m) branches /\ open_quote m = q1
             /\ is_quote (close_quote m)).
  { intros q1 s1 Ha.
    apply alternation_first in Ha.
    destruct Ha as (pre & b & post & s' & -> & -> & Hk & _).
    apply closing_sound in Hk. destruct Hk as (q2 & rest & Hq2 & -> & ->).
    simpl. repeat split; auto. apply in_or_app. right. now left. }
  apply or_else_Some in H. destruct H as [H | [_ H]].
  - destruct s as [|c s1]; [discriminate|].
    destruct (Ascii.eqb_spec c "'") as [->|Hne]; [|discriminate].
    apply Hbody in H. destruct H as (-> & Hin & Hq & Hc).
    rewrite Hq. repeat split; auto. right; reflexivity.
  - apply Hbody in H. destruct H as (-> & Hin & Hq & Hc).
    rewrite Hq. repeat split; auto. left; reflexivity.
Qed.

(** A text that begins with an optional quote, a branch, an optional quote
    and ["!"] is matched. *)
Lemma regex_match_complete (branches : list string) (q1 name q2 rest : string) :
  In name branches -> is_quote q1 -> is_quote q2 ->
  regex_match branches (q1 ++ name ++ q2 ++ "!" ++ rest) <> None.
Proof.
  intros Hin Hq1 Hq2.
  assert (Hbody : forall q,
             alternation branches (name ++ q2 ++ "!" ++ rest) (fun n s2 =>
               opt_quote s2 (fun q2 s3 => bang s3 (fun s4 =>
                 Some (mk_match q n q2 s4)))) <> None).
  { intros q Hnone.
    rewrite alternation_None in Hnone.
    specialize (Hnone name (q2 ++ "!" ++ rest) Hin eq_refl).
    now rewrite closing_complete in Hnone. }
  unfold regex_match, opt_quote at 1. intros H.
  apply or_else_None in H. destruct H as [H1 H2].
  destruct Hq1 as [-> | ->]; simpl in *.
  - now apply (Hbody "").
  - now apply (Hbody "'").
Qed.

(** Among the branches that can complete a match after the same opening
    quote, the one listed first is taken. *)
Lemma regex_match_first (branches : list string) (s : string) (m : ref_match) :
  regex_match branches s = Some m ->
  exists pre post,
    branches = (pre ++ group2 m :: post)%list
    /\ (forall b q2 rest,
           In b pre -> is_quote q2 ->
           s <> open_quote m ++ b ++ q2 ++ "!" ++ rest).
Proof.
  unfold regex_match, opt_quote at 1. intros H.
  assert (Hbody : forall q1 s1,
             alternation branches s1 (fun name s2 =>
               opt_quote s2 (fun q2 s3 => bang s3 (fun s4 =>
                 Some (mk_match q1 name q2 s4)))) = Some m ->
             open_quote m = q1
             /\ exists pre post,
                 branches = (pre ++ group2 m :: post)%list
                 /\ (forall b q2 rest,
                        In b pre -> is_quote q2 -> s1 <> b ++ q2 ++ "!" ++ rest)).
  { intros q1 s1 Ha.
    apply alternation_first in Ha.
    destruct Ha as (pre & b & post & s' & Hb & Hs1 & Hk & Hpre).
    apply closing_sound in Hk. destruct Hk as (q2 & rest & Hq2 & -> & ->).
    simpl. split; [reflexivity|].
    exists pre, post. split; [exact Hb|].
    intros b' q2' rest' Hin Hq Hs.
    specialize (Hpre b' (q2' ++ "!" ++ rest') Hin Hs).
    now rewrite closing_complete in Hpre. }
  apply or_else_Some in H. destruct H as [H | [_ H]].
  - destruct s as [|c s1]; [discriminate|].
    destruct (Ascii.eqb_spec c "'") as [->|Hne]; [|discriminate].
    apply Hbody in H. destruct H as (Hq & pre & post & Hb & Hpre).
    exists pre, post. split; [exact Hb|].
    intros b q2 rest Hin Hq2 Hs. rewrite Hq in Hs. simpl in Hs.
    injection Hs as Hs. now apply (Hpre b q2 rest).
  - apply Hbody in H. destruct H as (Hq & pre & post & Hb & Hpre).
    exists pre, post. split; [exact Hb|].
    intros b q2 rest Hin Hq2 Hs. rewrite Hq in Hs. simpl in Hs.
    now apply (Hpre b q2 rest).
Qed.

(** The text after a match is shorter than the text matched. *)
Lemma regex_match_after_shorter (branches : list string) (s : string) (m : ref_match) :
  regex_match branches s = Some m ->
  String.length (after m) < String.length s.
Proof.
  intros H. apply regex_match_sound in H. destruct H as (Hs & _).
  rewrite Hs, !append_length. simpl. lia.
Qed.

Lemma regex_match_empty (branches : list string) : regex_match branches "" = None.
Proof.
  destruct (regex_match branches "") as [m|] eqn:E; [|reflexivity].
  apply regex_match_after_shorter in E. simpl in E. lia.
Qed.

(** ** The scan *)

Lemma sub_loop_enough (branches : list string) (repl : ref_match -> string) :
  forall (fuel fuel' : nat) (s : string),
    String.length s < fuel -> String.length s < fuel' ->
    sub_loop fuel branches repl s = sub_loop fuel' branches repl s.
Proof.
  induction fuel as [|fuel IH]; intros fuel' s H H'; [lia|].
  destruct fuel' as [|fuel']; [lia|]. simpl.
  destruct (regex_match branches s) as [m|] eqn:E.
  - apply regex_match_after_shorter in E.
    f_equal. apply IH; lia.
  - destruct s as [|c s]; [reflexivity|]. simpl in *.
    f_equal. apply IH; lia.
Qed.

Lemma sub_loop_S (fuel : nat) (branches : list string) (repl : ref_match -> string)
    (s : string) :
  sub_loop (S fuel) branches repl s
  = match regex_match branches s with
    | Some m => repl m ++ sub_loop fuel branches repl (after m)
    | None =>
        match s with
        | EmptyString => EmptyString
        | String c s' => String c (sub_loop fuel branches repl s')
        end
    end.
Proof. reflexivity. Qed.

(** One round of [sub]: the equation the scan obeys. *)
Lemma sub_step (branches : list string) (repl : ref_match -> string) (s : string) :
  sub branches repl s
  = match regex_match branches s with
    | Some m => repl m ++ sub branches repl (after m)
    | None =>
        match s with
        | EmptyString => EmptyString
        | String c s' => String c (sub branches repl s')
        end
    end.
Proof.
  unfold sub. rewrite sub_loop_S.
  destruct (regex_match branches s) as [m|] eqn:E.
  - apply regex_match_after_shorter in E.
    f_equal. apply sub_loop_enough; lia.
  - destruct s as [|c s]; [reflexivity|].
    reflexivity.
Qed.

(** C4, as the code has it.  At a position of the text the matcher matches
    exactly when the text there is an optional straight quote, one of the old
    names character for character (no folding of case, no character of the
    name read as a pattern), an optional straight quote and ["!"].  The two
    quotes are independent of each other: both, neither or only one of them
    may stand. *)
Theorem matcher_matches_names_with_optional_quotes (old_names : list string) (s : string) :
  (forall m, regex_match (sheet_names_pattern old_names) s = Some m ->
      s = matched_span m ++ after m
      /\ matched_span m = open_quote m ++ group2 m ++ close_quote m ++ "!"
      /\ In (group2 m) (sheet_names_pattern old_names)
      /\ is_quote (open_quote m)
      /\ is_quote (close_quote m))
  /\ (forall q1 name q2 rest,
        In name (sheet_names_pattern old_names) -> is_quote q1 -> is_quote q2 ->
        s = q1 ++ name ++ q2 ++ "!" ++ rest ->
        regex_match (sheet_names_pattern old_names) s <> None)
  /\ (old_names <> [] -> sheet_names_pattern old_names = old_names)
  /\ regex_match (sheet_names_pattern ["Data"]) "data!A1" = None
  /\ regex_match (sheet_names_pattern ["A.B"]) "AxB!C1" = None
  /\ regex_match (sheet_names_pattern ["A.B"]) "A.B!C1" = Some (mk_match "" "A.B" "" "C1")
  /\ regex_match (sheet_names_pattern ["A"]) "'A'!B1" = Some (mk_match "'" "A" "'" "B1")
  /\ regex_match (sheet_names_pattern ["A"]) "'A!B1" = Some (mk_match "'" "A" "" "B1")
  /\ regex_match (sheet_names_pattern ["A"]) "A'!B1" = Some (mk_match "" "A" "'" "B1").
Proof.
  split; [|split; [|split]].
  - intros m H. apply regex_match_sound in H.
    destruct H as (Hs & Hin & Hq1 & Hq2).
    unfold matched_span, group1. repeat split; auto.
    + rewrite Hs at 1. now rewrite !append_assoc.
    + now rewrite !append_assoc.
  - intros q1 name q2 rest Hin Hq1 Hq2 ->. now apply regex_match_complete.
  - destruct old_names; [congruence | reflexivity].
  - repeat split; reflexivity.
Qed.

Lemma matcher_matches_names_with_optional_quotes_witness :
  regex_match (sheet_names_pattern ["Data"; "Summary"]) "'Summary'!A1" <> None.
Proof.
  destruct (matcher_matches_names_with_optional_quotes
              ["Data"; "Summary"] "'Summary'!A1") as (_ & Hcomplete & _).
  apply (Hcomplete "'" "Summary" "'" "A1").
  - simpl. auto.
  - right; reflexivity.
  - right; reflexivity.
  - reflexivity.
Defined.

(** C4, as stated, fails: the matcher matches a name with a quote before it
    and none after it, and a name with a quote after it and none before it. *)
Lemma matcher_accepts_quote_on_one_side :
  (exists m, regex_match (sheet_names_pattern ["A"]) "'A!B1" = Some m
             /\ open_quote m = "'" /\ close_quote m = "")
  /\ (exists m, regex_match (sheet_names_pattern ["A"]) "A'!B1" = Some m
                /\ open_quote m = "" /\ close_quote m = "'").
Proof.
  split; eexists; (split; [reflexivity | split; reflexivity]).
Qed.

(** ** Dictionaries and the collected mapping *)

Lemma dict_get_set (d : dict) (k v k' : string) :
  dict_get (dict_set d k v) k' = if String.eqb k k' then Some v else dict_get d k'.
Proof.
  induction d as [|[k0 v0] d IH]; simpl.
  - reflexivity.
  - destruct (String.eqb_spec k0 k) as [->|Hne]; simpl.
    + destruct (String.eqb k k'); reflexivity.
    + destruct (String.eqb_spec k0 k') as [->|Hne'].
      * destruct (String.eqb_spec k k'); [congruence | reflexivity].
      * exact IH.
Qed.


Lemma dict_get_key (d : dict) (k v : string) :
  dict_get d k = Some v -> In k (dict_keys d).
Proof.
  unfold dict_keys. induction d as [|[k0 v0] d IH]; simpl; [discriminate|].
  destruct (String.eqb_spec k0 k); auto.
Qed.

Lemma dict_keys_set_new (d : dict) (k v : string) :
  ~ In k (dict_keys d) -> dict_keys (dict_set d k v) = (dict_keys d ++ [k])%list.
Proof.
  unfold dict_keys.
  induction d as [|[k0 v0] d IH]; simpl; intros Hnin.
  - reflexivity.
  - destruct (String.eqb_spec k0 k) as [->|Hne]; [tauto|].
    simpl. rewrite IH; [reflexivity | tauto].
Qed.

Lemma collect_names_keys (edited_df : EditedFrame) :
  forall (worksheets : list Sheet) (idx : nat) (acc mapping : dict),
    collect_names worksheets idx edited_df acc = inl mapping ->
    NoDup (dict_keys acc ++ map title worksheets) ->
    dict_keys mapping = (dict_keys acc ++ map title worksheets)%list.
Proof.
  induction worksheets as [|sheet rest IH]; simpl; intros idx acc mapping H Hnd.
  - injection H as <-. now rewrite app_nil_r.
  - destruct (edited_df idx) as [row|]; [|discriminate].
    destruct (New_Name row) as [new_name|]; [|discriminate].
    assert (Hnin : ~ In (title sheet) (dict_keys acc)).
    { intros Hin. apply NoDup_remove_2 in Hnd. apply Hnd.
      apply in_or_app. now left. }
    apply IH in H.
    + rewrite H, dict_keys_set_new by exact Hnin.
      now rewrite <- app_assoc.
    + rewrite dict_keys_set_new by exact Hnin.
      now rewrite <- app_assoc.
Qed.

(** C5, as the code has it.  The alternation lists the old names in the order
    of the keys of the mapping, which is the order of the sheets; nothing
    sorts them.  Among the names that can complete a match after the same
    opening quote, the one listed first is taken, whatever the lengths. *)
Theorem alternation_follows_sheet_order :
  (forall mapping, mapping <> [] -> sheet_ref_regex mapping = dict_keys mapping)
  /\ (forall wb edited_df mapping,
        collect_names wb 0 edited_df [] = inl mapping ->
        NoDup (map title wb) ->
        dict_keys mapping = map title wb)
  /\ (forall branches s m,
        regex_match branches s = Some m ->
        exists pre post,
          branches = (pre ++ group2 m :: post)%list
          /\ (forall b q2 rest,
                 In b pre -> is_quote q2 ->
                 s <> open_quote m ++ b ++ q2 ++ "!" ++ rest)).
Proof.
  split; [|split].
  - intros [|kv mapping] H; [congruence | reflexivity].
  - intros wb edited_df mapping H Hnd.
    now apply (collect_names_keys edited_df wb 0 [] mapping H).
  - apply regex_match_first.
Qed.

Lemma alternation_follows_sheet_order_witness :
  dict_keys mapping_totals = map title wb_totals
  /\ sheet_ref_regex mapping_totals = dict_keys mapping_totals.
Proof.
  destruct alternation_follows_sheet_order as (Hregex & Hkeys & _).
  split.
  - apply (Hkeys wb_totals df_totals mapping_totals); [reflexivity|].
    repeat constructor; simpl; intuition discriminate.
  - apply Hregex. discriminate.
Defined.

(** C5, as stated, fails on a workbook whose sheets are Total, Total! and
    Report, in this order: the alternation lists Total before the longer
    Total!, and in ['Total!'!A1], where each of the two names can match, the
    shorter one is taken, so the reference to Total! is rewritten as one to
    Total. *)
Lemma shorter_name_listed_first_wins :
  collect_names wb_totals 0 df_totals [] = inl mapping_totals
  /\ sheet_ref_regex mapping_totals = ["Total"; "Total!"; "Report"]
  /\ ~ by_descending_length (sheet_ref_regex mapping_totals)
  /\ regex_match ["Total!"] "'Total!'!A1" = Some (mk_match "'" "Total!" "'" "A1")
  /\ regex_match ["Total"] "'Total!'!A1" = Some (mk_match "'" "Total" "" "'!A1")
  /\ regex_match (sheet_ref_regex mapping_totals) "'Total!'!A1"
     = Some (mk_match "'" "Total" "" "'!A1")
  /\ rewrite_formula "='Total!'!A1" mapping_totals = "=Sum!'!A1".
Proof.
  repeat split; try reflexivity.
  simpl. intros (H & _). inversion H as [|? ? Hle _]. simpl in Hle. lia.
Qed.

(** ** Rewriting a formula *)

Lemma contains_In (c : ascii) (s : string) :
  contains c s = true <-> In c (list_ascii_of_string s).
Proof.
  induction s as [|c' s IH]; simpl.
  - split; [discriminate | tauto].
  - destruct (Ascii.eqb_spec c' c) as [->|Hne].
    + split; auto.
    + rewrite IH. split; [auto | intros [H|H]; [congruence | exact H]].
Qed.

Lemma contains_app (c : ascii) (a b : string) :
  contains c (a ++ b) = contains c a || contains c b.
Proof.
  induction a as [|x a IH]; simpl; [reflexivity|].
  destruct (Ascii.eqb x c); [reflexivity | exact IH].
Qed.

(** The test of line 154 holds exactly of the names with a space or one of
    [- + ( ) [ ]]. *)
Lemma needs_quotes_spec (name : string) :
  needs_quotes name = true <-> has_special name.
Proof.
  unfold needs_quotes, has_special, special_characters.
  rewrite orb_true_iff, existsb_exists. split.
  - intros [H | (c & Hc & H)].
    + exists " "%char. split; [now apply contains_In | now left].
    + exists c. split; [now apply contains_In|].
      simpl in Hc. right.
      repeat (destruct Hc as [<- | Hc]; [auto 10|]). contradiction.
  - intros (c & Hin & [<- | Hc]).
    + left. now apply contains_In.
    + right. exists c. split; [|now apply contains_In].
      simpl. repeat (destruct Hc as [-> | Hc]; [auto 10|]). subst c. auto 10.
Qed.

Lemma replacer_quoted (mapping : dict) (q1 name q2 rest : string) :
  has_special (replacement_name mapping q1 name q2) ->
  replacer mapping (mk_match q1 name q2 rest)
  = "'" ++ replacement_name mapping q1 name q2 ++ "'" ++ "!".
Proof.
  intros H. apply needs_quotes_spec in H.
  unfold replacer, group1, replacement_name in *. simpl in *.
  rewrite H. simpl. now rewrite !append_assoc.
Qed.

Lemma replacer_bare (mapping : dict) (q1 name q2 rest : string) :
  ~ has_special (replacement_name mapping q1 name q2) ->
  replacer mapping (mk_match q1 name q2 rest)
  = replacement_name mapping q1 name q2 ++ "!".
Proof.
  intros H. rewrite <- needs_quotes_spec in H.
  apply not_true_is_false in H.
  unfold replacer, group1, replacement_name in *. simpl in *.
  now rewrite H.
Qed.

(** What [sub] returns is the formula rewritten as the specification says. *)
Lemma sub_rewritten (branches : list string) (mapping : dict) :
  forall (n : nat) (s : string),
    String.length s < n ->
    rewritten branches mapping s (sub branches (replacer mapping) s).
Proof.
  induction n as [|n IH]; intros s Hlen; [lia|].
  rewrite sub_step.
  destruct (regex_match branches s) as [m|] eqn:E.
  - pose proof (regex_match_after_shorter _ _ _ E) as Hshort.
    pose proof (regex_match_sound _ _ _ E) as (Hs & _).
    destruct m as [q1 name q2 rest]. simpl in *.
    assert (Hrest : rewritten branches mapping rest (sub branches (replacer mapping) rest))
      by (apply IH; lia).
    rewrite Hs in E. rewrite Hs at 1.
    destruct (needs_quotes (replacement_name mapping q1 name q2)) eqn:Q.
    + apply needs_quotes_spec in Q.
      rewrite (replacer_quoted mapping q1 name q2 rest Q), !append_assoc.
      now apply rw_quoted.
    + assert (Q' : ~ has_special (replacement_name mapping q1 name q2))
        by (rewrite <- needs_quotes_spec; congruence).
      rewrite (replacer_bare mapping q1 name q2 rest Q'), !append_assoc.
      now apply rw_bare.
  - destruct s as [|c s]; [constructor|].
    apply rw_keep; [exact E|]. apply IH. simpl in Hlen. lia.
Qed.

(** The specification's rewriting has one result. *)
Lemma rewritten_sub (branches : list string) (mapping : dict) (s out : string) :
  rewritten branches mapping s out ->
  out = sub branches (replacer mapping) s.
Proof.
  induction 1 as [ | c s t E _ IH | q1 name q2 rest t E Q _ IH | q1 name q2 rest t E Q _ IH ];
    rewrite sub_step.
  - now rewrite regex_match_empty.
  - rewrite E. now rewrite IH.
  - rewrite E. cbn [after].
    rewrite (replacer_quoted mapping q1 name q2 rest Q), !append_assoc, <- IH.
    reflexivity.
  - rewrite E. cbn [after].
    rewrite (replacer_bare mapping q1 name q2 rest Q), !append_assoc, <- IH.
    reflexivity.
Qed.

Lemma rstrip_quote_app_quote (s : string) : rstrip_quote (s ++ "'") = rstrip_quote s.
Proof.
  induction s as [|c s IH]; simpl; [reflexivity | now rewrite IH].
Qed.

Lemma rstrip_quote_no_quote (s : string) :
  contains "'" s = false -> rstrip_quote s = s.
Proof.
  induction s as [|c s IH]; simpl; [reflexivity|].
  destruct (Ascii.eqb c "'") eqn:E; [discriminate|]. intros H.
  rewrite (IH H). destruct s; reflexivity.
Qed.

(** Stripping the quotes of a matched reference gives back a name that holds
    no quote. *)
Lemma strip_quote_wrapped (q1 name q2 : string) :
  contains "'" name = false -> is_quote q1 -> is_quote q2 ->
  strip_quote (q1 ++ name ++ q2) = name.
Proof.
  intros Hname Hq1 Hq2. unfold strip_quote.
  assert (Hl : lstrip_quote (q1 ++ name ++ q2) = lstrip_quote (name ++ q2))
    by (destruct Hq1 as [-> | ->]; reflexivity).
  rewrite Hl. destruct name as [|c name].
  - destruct Hq2 as [-> | ->]; reflexivity.
  - simpl in Hname |- *.
    destruct (Ascii.eqb c "'") eqn:E; [discriminate|].
    change (rstrip_quote (String c name ++ q2) = String c name).
    destruct Hq2 as [-> | ->].
    + rewrite append_nil_r. apply rstrip_quote_no_quote. simpl. now rewrite E.
    + rewrite rstrip_quote_app_quote. apply rstrip_quote_no_quote. simpl. now rewrite E.
Qed.

(** What is left of a text stripped on the left begins with no quote. *)
Lemma lstrip_quote_head (s t : string) : lstrip_quote s <> String "'" t.
Proof.
  induction s as [|c s IH]; simpl; [discriminate|].
  destruct (Ascii.eqb_spec c "'") as [->|Hne]; [exact IH|].
  intros H. injection H as H _. contradiction.
Qed.

(** Stripping on the right keeps the first character, if it keeps any. *)
Lemma rstrip_quote_head (s : string) (c : ascii) (r : string) :
  rstrip_quote s = String c r -> exists s', s = String c s'.
Proof.
  destruct s as [|c' s]; simpl; [discriminate|].
  destruct (rstrip_quote s); [destruct (Ascii.eqb c' "'")|];
    intros H; inversion H; eauto.
Qed.

(** What is left of a text stripped on the right ends with no quote. *)
Lemma rstrip_quote_last (s : string) : forall t, rstrip_quote s <> t ++ "'".
Proof.
  induction s as [|c s IH]; intros t; simpl.
  - destruct t; discriminate.
  - destruct (rstrip_quote s) as [|c' r] eqn:E.
    + destruct (Ascii.eqb_spec c "'") as [->|Hne].
      * destruct t; discriminate.
      * destruct t as [|x t]; simpl; intros H; inversion H; subst.
        -- contradiction.
        -- destruct t; discriminate.
    + destruct t as [|x t]; simpl; intros H; inversion H; subst.
      now apply (IH t).
Qed.

Lemma strip_quote_ends (s : string) : ~ quote_at_an_end (strip_quote s).
Proof.
  unfold strip_quote. intros [(t & H) | (t & H)].
  - destruct (rstrip_quote_head _ _ _ H) as (s' & Hs').
    now apply lstrip_quote_head in Hs'.
  - now apply rstrip_quote_last in H.
Qed.

(** A text that ends with no quote is left as it is on the right. *)
Lemma rstrip_quote_fixed (s : string) :
  (forall t, s <> t ++ "'") -> rstrip_quote s = s.
Proof.
  induction s as [|c s IH]; intros H; simpl; [reflexivity|].
  destruct s as [|c' s].
  - simpl. destruct (Ascii.eqb_spec c "'") as [->|Hne]; [|reflexivity].
    exfalso. now apply (H "").
  - rewrite IH; [reflexivity|].
    intros t Ht. apply (H (String c t)). simpl. now rewrite Ht.
Qed.

(** Stripping the quotes of a matched reference gives back the name when
    the name neither begins nor ends with a quote. *)
Lemma strip_quote_reference (q1 name q2 : string) :
  ~ quote_at_an_end name -> is_quote q1 -> is_quote q2 ->
  strip_quote (q1 ++ name ++ q2) = name.
Proof.
  intros Hname Hq1 Hq2. unfold strip_quote.
  assert (Hl : lstrip_quote (q1 ++ name ++ q2) = lstrip_quote (name ++ q2))
    by (destruct Hq1 as [-> | ->]; reflexivity).
  rewrite Hl. destruct name as [|c name].
  - destruct Hq2 as [-> | ->]; reflexivity.
  - simpl. destruct (Ascii.eqb_spec c "'") as [->|Hne].
    + exfalso. apply Hname. left. now exists name.
    + change (rstrip_quote (String c name ++ q2) = String c name).
      assert (Hr : rstrip_quote (String c name) = String c name).
      { apply rstrip_quote_fixed. intros t Ht. apply Hname. right. now exists t. }
      destruct Hq2 as [-> | ->].
      * now rewrite append_nil_r.
      * now rewrite rstrip_quote_app_quote.
Qed.

(** A name that holds no quote has none at its ends. *)
Lemma no_quote_no_end (name : string) :
  contains "'" name = false -> ~ quote_at_an_end name.
Proof.
  intros H [(t & ->) | (t & ->)].
  - discriminate.
  - rewrite contains_app in H. apply orb_false_iff in H. now destruct H.
Qed.

(** C2, as the code has it.  The rewritten formula is the formula in which,
    scanning from the left, every reference the matcher finds (its quotes
    and its ["!"] included) is replaced by a name and ["!"], the name between
    one pair of straight quotes exactly when it holds a space or one of
    [- + ( ) [ ]], and every character outside the references is kept; it is
    the only text so obtained.  The name is what the mapping gives for the
    matched text stripped of the quotes at its ends, that text itself when it
    is no key; the text stripped is the matched old name exactly when that
    name neither begins nor ends with a quote, and then the name written is
    the new name of the matched old name. *)
Theorem rewrite_replaces_references_only (formula : string) (mapping : dict) :
  rewritten (sheet_ref_regex mapping) mapping formula (rewrite_formula formula mapping)
  /\ (forall out,
        rewritten (sheet_ref_regex mapping) mapping formula out ->
        out = rewrite_formula formula mapping)
  /\ (forall q1 name q2,
        is_quote q1 -> is_quote q2 ->
        (strip_quote (q1 ++ name ++ q2) = name <-> ~ quote_at_an_end name))
  /\ (forall q1 name q2,
        is_quote q1 -> is_quote q2 -> ~ quote_at_an_end name ->
        replacement_name mapping q1 name q2 = dict_get_default mapping name name)
  /\ (forall name, needs_quotes name = true <-> has_special name)
  /\ rewrite_formula "OldSheet!A1" [("OldSheet", "New Sheet")] = "'New Sheet'!A1"
  /\ rewrite_formula "=SUM(OldSheet!A1:A2)+1" [("OldSheet", "Sheet2")]
     = "=SUM(Sheet2!A1:A2)+1"
  /\ (forall c,
        In c [" "; "-"; "+"; "("; ")"; "["; "]"]%char ->
        rewrite_formula "=S!A1" [("S", String c "x")] = "='" ++ String c "x'!A1").
Proof.
  unfold rewrite_formula, replace_sheet_names_in_formula.
  split; [|split; [|split; [|split; [|split; [|split; [|split]]]]]].
  - apply (sub_rewritten _ _ (S (String.length formula))). lia.
  - apply rewritten_sub.
  - intros q1 name q2 Hq1 Hq2. split.
    + intros H Hname. apply (strip_quote_ends (q1 ++ name ++ q2)). now rewrite H.
    + intros Hname. now apply strip_quote_reference.
  - intros q1 name q2 Hq1 Hq2 Hname. unfold replacement_name.
    now rewrite strip_quote_reference.
  - apply needs_quotes_spec.
  - reflexivity.
  - reflexivity.
  - intros c Hc. simpl in Hc.
    repeat (destruct Hc as [<- | Hc]; [reflexivity|]). contradiction.
Qed.

Lemma rewrite_replaces_references_only_witness :
  replacement_name [("OldSheet", "New Sheet")] "'" "OldSheet" "'" = "New Sheet".
Proof.
  destruct (rewrite_replaces_references_only "" [("OldSheet", "New Sheet")])
    as (_ & _ & _ & Hname & _).
  rewrite (Hname "'" "OldSheet" "'").
  - reflexivity.
  - right; reflexivity.
  - right; reflexivity.
  - now apply no_quote_no_end.
Defined.

(** C2, as stated, fails for a mapping with a key that stands between
    quotes: the matcher finds the key ['A'] in [='A'!B1], the rewriter looks
    up the text without its quotes, which is no key, and writes [A] where
    the mapping gives [X]. *)
Lemma quoted_key_is_not_looked_up :
  regex_match (sheet_ref_regex [("'A'", "X")]) "'A'!B1"
  = Some (mk_match "" "'A'" "" "B1")
  /\ dict_get [("'A'", "X")] "'A'" = Some "X"
  /\ replacement_name [("'A'", "X")] "" "'A'" "" = "A"
  /\ rewrite_formula "='A'!B1" [("'A'", "X")] = "=A!B1"
  /\ rewrite_formula "='A'!B1" [("'A'", "X")] <> "=X!B1".
Proof.
  repeat split; try reflexivity. vm_compute. discriminate.
Qed.

(** C10.  The matcher is tried at every position, whatever stands before it:
    a character at which nothing matches is kept and the scan goes on with
    the next one.  So an old name that ends a longer word before ["!"] is
    matched and rewritten: with Data mapped to D2, [=MyData!A1] becomes
    [=MyD2!A1], although MyData is no key of the mapping. *)
Theorem no_boundary_left_of_a_name :
  (forall branches repl c s,
      regex_match branches (String c s) = None ->
      sub branches repl (String c s) = String c (sub branches repl s))
  /\ dict_get [("Data", "D2")] "MyData" = None
  /\ regex_match (sheet_ref_regex [("Data", "D2")]) "Data!A1"
     = Some (mk_match "" "Data" "" "A1")
  /\ rewrite_formula "=MyData!A1" [("Data", "D2")] = "=MyD2!A1".
Proof.
  split; [|repeat split; reflexivity].
  intros branches repl c s H. now rewrite sub_step, H.
Qed.

Lemma no_boundary_left_of_a_name_witness :
  sub ["Data"] (replacer [("Data", "D2")]) "yData!A1"
  = String "y" (sub ["Data"] (replacer [("Data", "D2")]) "Data!A1").
Proof.
  destruct no_boundary_left_of_a_name as (Hstep & _).
  apply Hstep. reflexivity.
Defined.

(** ** Rewriting twice *)

Lemma branch_is_key (mapping : dict) (name : string) :
  In name (sheet_ref_regex mapping) ->
  In name (dict_keys mapping) \/ (mapping = [] /\ name = "").
Proof.
  unfold sheet_ref_regex. destruct mapping as [|kv mapping]; simpl.
  - intros [<- | []]. now right.
  - intros H. now left.
Qed.

Lemma quote_not_in_text (q : string) :
  is_quote q -> contains "'" q = false -> q = "".
Proof. intros [-> | ->]; [reflexivity | discriminate]. Qed.

(** With every name mapped to itself and no name in need of quotes, a formula
    that holds no quote is left as it is. *)
Lemma rewrite_quote_free (mapping : dict) :
  identity_mapping mapping ->
  (forall k, In k (dict_keys mapping) -> needs_quotes k = false) ->
  forall (n : nat) (g : string),
    String.length g < n ->
    contains "'" g = false ->
    rewrite_formula g mapping = g.
Proof.
  intros Hid Hplain. unfold rewrite_formula, replace_sheet_names_in_formula.
  induction n as [|n IH]; intros g Hlen Hg; [lia|].
  rewrite sub_step.
  destruct (regex_match (sheet_ref_regex mapping) g) as [m|] eqn:E.
  - pose proof (regex_match_after_shorter _ _ _ E) as Hshort.
    apply regex_match_sound in E. destruct E as (Hs & Hin & Hq1 & Hq2).
    destruct m as [q1 name q2 rest]. simpl in *.
    rewrite Hs in Hg. rewrite !contains_app in Hg.
    apply orb_false_iff in Hg. destruct Hg as (Hg1 & Hg).
    apply orb_false_iff in Hg. destruct Hg as (Hgn & Hg).
    apply orb_false_iff in Hg. destruct Hg as (Hg2 & Hg).
    apply orb_false_iff in Hg. destruct Hg as (_ & Hgr).
    apply (quote_not_in_text q1 Hq1) in Hg1.
    apply (quote_not_in_text q2 Hq2) in Hg2. subst q1 q2.
    rewrite (IH rest) by (try assumption; lia).
    assert (Hrepl : replacer mapping (mk_match "" name "" rest) = name ++ "!").
    { unfold replacer, group1. cbn [open_quote group2 close_quote].
      rewrite (strip_quote_wrapped "" name "" Hgn (or_introl eq_refl) (or_introl eq_refl)).
      destruct (branch_is_key mapping name Hin) as [Hkey | [-> ->]].
      - unfold dict_get_default. rewrite (Hid name Hkey), (Hplain name Hkey).
        reflexivity.
      - reflexivity. }
    rewrite Hrepl, Hs. simpl. now rewrite !append_assoc.
  - destruct g as [|c g]; [reflexivity|].
    simpl in Hg, Hlen. destruct (Ascii.eqb c "'"); [discriminate|].
    rewrite (IH g); [reflexivity | lia | exact Hg].
Qed.

Lemma append_cancel_l (p a b : string) : p ++ a = p ++ b -> a = b.
Proof.
  induction p as [|c p IH]; simpl; intros H; [exact H|].
  injection H as H. now apply IH.
Qed.

(** What is stripped from a text is quotes. *)
Lemma lstrip_quote_quotes (s : string) :
  exists a, s = quotes a ++ lstrip_quote s.
Proof.
  induction s as [|c s (a & IH)]; [now exists 0|].
  simpl. destruct (Ascii.eqb_spec c "'") as [->|Hne].
  - exists (S a). simpl. now rewrite <- IH.
  - now exists 0.
Qed.

Lemma rstrip_quote_quotes (s : string) :
  exists b, s = rstrip_quote s ++ quotes b.
Proof.
  induction s as [|c s (b & IH)]; [now exists 0|].
  simpl. destruct (rstrip_quote s) as [|c' r] eqn:E.
  - destruct (Ascii.eqb_spec c "'") as [->|Hne].
    + exists (S b). simpl in *. now rewrite <- IH.
    + exists b. simpl in *. now rewrite <- IH.
  - exists b. simpl in *. now rewrite <- IH.
Qed.

Lemma strip_quote_quotes (g : string) :
  exists a b, g = quotes a ++ strip_quote g ++ quotes b.
Proof.
  destruct (lstrip_quote_quotes g) as (a & Ha).
  destruct (rstrip_quote_quotes (lstrip_quote g)) as (b & Hb).
  exists a, b. unfold strip_quote. now rewrite <- Hb.
Qed.

(** A name without a quote at its ends, followed by ["!"], begins with no
    quote. *)
Lemma name_then_bang_head (name x r : string) :
  ~ quote_at_an_end name -> name ++ "!" ++ x <> String "'" r.
Proof.
  intros Hname H. destruct name as [|c name]; [discriminate|].
  simpl in H. injection H as -> _. apply Hname. left. now exists name.
Qed.

Lemma name_head (name z r : string) :
  ~ quote_at_an_end name -> name <> "" -> name ++ z <> String "'" r.
Proof.
  intros Hname Hne H. destruct name as [|c name]; [congruence|].
  simpl in H. injection H as -> _. apply Hname. left. now exists name.
Qed.

(** A bare name between some quotes that begins, with its ["!"], as the
    name written by the rewriter does, is the name so written. *)
Lemma written_name_fixed (core x y : string) (a b : nat) :
  ~ quote_at_an_end core ->
  written_name core ++ "!" ++ x = (quotes a ++ core ++ quotes b) ++ "!" ++ y ->
  quotes a ++ core ++ quotes b = written_name core.
Proof.
  intros Hcore. unfold written_name.
  destruct (needs_quotes core) eqn:Q.
  - assert (Hne : core <> "") by (intros ->; discriminate).
    rewrite !append_assoc. destruct a as [|[|a]]; cbn [quotes append]; intros H.
    + exfalso. symmetry in H. now apply name_head in H.
    + injection H as H. apply append_cancel_l in H.
      destruct b as [|[|b]]; cbn [quotes append] in *;
        [discriminate | reflexivity | discriminate].
    + exfalso. injection H as H. now apply name_head in H.
  - rewrite !append_assoc. destruct a as [|a]; cbn [quotes append]; intros H.
    + apply append_cancel_l in H.
      destruct b as [|b]; cbn [quotes append] in *; [|discriminate].
      now rewrite append_nil_r.
    + exfalso. now apply name_then_bang_head in H.
Qed.

Section Identity.
Variable mapping : dict.
Hypothesis Hid : identity_mapping mapping.

(** What the rewriter writes for a reference when every name is mapped to
    itself: the bare name of the reference, between quotes when it needs
    them. *)
Lemma replacer_identity (m : ref_match) :
  replacer mapping m = written_name (strip_quote (group1 m)) ++ "!".
Proof.
  unfold replacer, written_name.
  assert (Hget : dict_get_default mapping (strip_quote (group1 m)) (strip_quote (group1 m))
                 = strip_quote (group1 m)).
  { unfold dict_get_default.
    destruct (dict_get mapping (strip_quote (group1 m))) as [v|] eqn:G; [|reflexivity].
    pose proof (Hid _ (dict_get_key _ _ _ G)) as G'. congruence. }
  now rewrite Hget.
Qed.

(** A text whose references are all written as the rewriter writes them is
    left as it is. *)
Lemma settled_fixed (g : string) :
  settled (sheet_ref_regex mapping) g -> rewrite_formula g mapping = g.
Proof.
  unfold rewrite_formula, replace_sheet_names_in_formula.
  induction 1 as [ | c s E _ IH | s m name E Hname Hwritten _ IH ]; rewrite sub_step.
  - now rewrite regex_match_empty.
  - now rewrite E, IH.
  - rewrite E, IH, replacer_identity.
    destruct (regex_match_sound _ _ _ E) as (Hs & _).
    assert (Hg1 : written_name (strip_quote (group1 m)) = group1 m).
    { unfold written_name.
      destruct Hwritten as [(Hsp & Hg) | (Hsp & Hg)]; rewrite Hg.
      - rewrite (strip_quote_reference "'" name "'" Hname
                   (or_intror eq_refl) (or_intror eq_refl)).
        apply needs_quotes_spec in Hsp. now rewrite Hsp.
      - pose proof (strip_quote_reference "" name "" Hname
                      (or_introl eq_refl) (or_introl eq_refl)) as Hstrip.
        cbn [append] in Hstrip. rewrite append_nil_r in Hstrip. rewrite Hstrip.
        rewrite <- needs_quotes_spec in Hsp. apply not_true_is_false in Hsp.
        now rewrite Hsp. }
    rewrite Hg1, Hs at 1. unfold group1. now rewrite !append_assoc.
Qed.

(** A text the rewriter leaves as it is has all its references written as
    the rewriter writes them. *)
Lemma fixed_settled :
  forall (n : nat) (g : string),
    String.length g < n ->
    rewrite_formula g mapping = g ->
    settled (sheet_ref_regex mapping) g.
Proof.
  unfold rewrite_formula, replace_sheet_names_in_formula.
  induction n as [|n IH]; intros g Hlen; [lia|].
  rewrite sub_step.
  destruct (regex_match (sheet_ref_regex mapping) g) as [m|] eqn:E.
  - pose proof (regex_match_after_shorter _ _ _ E) as Hshort.
    destruct (regex_match_sound _ _ _ E) as (Hs & _).
    rewrite replacer_identity. intros H.
    assert (Hg : g = group1 m ++ "!" ++ after m)
      by (rewrite Hs at 1; unfold group1; now rewrite !append_assoc).
    rewrite Hg in H. rewrite append_assoc in H.
    destruct (strip_quote_quotes (group1 m)) as (a & b & Hab).
    pose proof (strip_quote_ends (group1 m)) as Hends.
    assert (Hfixed : group1 m = written_name (strip_quote (group1 m))).
    { rewrite Hab at 1.
      apply (written_name_fixed _
               (sub (sheet_ref_regex mapping) (replacer mapping) (after m))
               (after m) a b Hends).
      now rewrite <- Hab. }
    rewrite <- Hfixed in H. apply append_cancel_l in H. injection H as H.
    apply (settled_ref _ g m (strip_quote (group1 m))).
    + exact E.
    + exact Hends.
    + unfold written_name in Hfixed.
      destruct (needs_quotes (strip_quote (group1 m))) eqn:Q.
      * left. split; [now apply needs_quotes_spec | exact Hfixed].
      * right. split; [|exact Hfixed].
        rewrite <- needs_quotes_spec. congruence.
    + apply IH; [lia | exact H].
  - destruct g as [|c g]; [constructor|].
    intros H. injection H as H.
    apply settled_keep; [exact E|]. apply IH; [simpl in Hlen; lia | exact H].
Qed.
End Identity.

(** C7, as the code has it.  Let every old name be mapped to itself.  A
    second pass returns the output of the first exactly when that output is
    settled: in every reference the matcher finds in it, what stands before
    ["!"] is a name that neither begins nor ends with a quote, between a pair
    of quotes when the name holds a space or one of [- + ( ) [ ]] and as it
    is otherwise.  So it is for [='My Sheet'!A1+My Sheet!B2] with My Sheet
    mapped to itself and for [='A'!C1+A!D2] with A mapped to itself, and for
    every formula without a quote when no name needs quotes, which a pass
    returns as it is.  With the names A and B swapped, the second pass over
    [=A!C1] differs from the first. *)
Theorem rewriting_twice :
  (forall mapping formula,
      identity_mapping mapping ->
      (rewrite_formula (rewrite_formula formula mapping) mapping
       = rewrite_formula formula mapping
       <-> settled (sheet_ref_regex mapping) (rewrite_formula formula mapping)))
  /\ (forall mapping formula,
      identity_mapping mapping ->
      (forall k, In k (dict_keys mapping) -> needs_quotes k = false) ->
      contains "'" formula = false ->
      rewrite_formula formula mapping = formula)
  /\ rewrite_formula "='My Sheet'!A1+My Sheet!B2" [("My Sheet", "My Sheet")]
     = "='My Sheet'!A1+'My Sheet'!B2"
  /\ rewrite_formula "='My Sheet'!A1+'My Sheet'!B2" [("My Sheet", "My Sheet")]
     = "='My Sheet'!A1+'My Sheet'!B2"
  /\ rewrite_formula (rewrite_formula "='A'!C1+A!D2" [("A", "A")]) [("A", "A")]
     = rewrite_formula "='A'!C1+A!D2" [("A", "A")]
  /\ (exists formula,
        rewrite_formula (rewrite_formula formula mapping_swap) mapping_swap
        <> rewrite_formula formula mapping_swap)
  /\ rewrite_formula "=A!C1" mapping_swap = "=B!C1"
  /\ rewrite_formula (rewrite_formula "=A!C1" mapping_swap) mapping_swap = "=A!C1".
Proof.
  split; [|split; [|split; [|split; [|split; [|split; [|split]]]]]].
  - intros mapping f Hid. split.
    + apply (fixed_settled mapping Hid
               (S (String.length (rewrite_formula f mapping)))). lia.
    + apply (settled_fixed mapping Hid).
  - intros mapping f Hid Hplain Hf.
    apply (rewrite_quote_free mapping Hid Hplain (S (String.length f))); [lia | exact Hf].
  - vm_compute. reflexivity.
  - vm_compute. reflexivity.
  - vm_compute. reflexivity.
  - exists "=A!C1". vm_compute. discriminate.
  - vm_compute. reflexivity.
  - vm_compute. reflexivity.
Qed.

Lemma identity_mapping_A : identity_mapping [("A", "A")].
Proof. intros k [<- | []]. reflexivity. Qed.

Lemma identity_mapping_My_Sheet : identity_mapping [("My Sheet", "My Sheet")].
Proof. intros k [<- | []]. reflexivity. Qed.

Lemma rewriting_twice_witness :
  settled (sheet_ref_regex [("My Sheet", "My Sheet")])
    (rewrite_formula "='My Sheet'!A1+My Sheet!B2" [("My Sheet", "My Sheet")])
  /\ ~ settled (sheet_ref_regex [("A", "A")]) (rewrite_formula "''A!B1" [("A", "A")])
  /\ rewrite_formula "=A!C1+1" [("A", "A")] = "=A!C1+1".
Proof.
  destruct rewriting_twice as (Hiff & Hsame & _).
  split; [|split].
  - apply Hiff.
    + exact identity_mapping_My_Sheet.
    + vm_compute. reflexivity.
  - intros H. apply Hiff in H.
    + vm_compute in H. discriminate.
    + exact identity_mapping_A.
  - apply Hsame.
    + exact identity_mapping_A.
    + intros k [<- | []]. reflexivity.
    + reflexivity.
Defined.

(** C7, as stated, fails for the mapping of A to itself: the first pass over
    [''A!B1] takes one of the two quotes away with the reference, and the
    second pass takes the other. *)
Lemma identity_mapping_not_idempotent :
  identity_mapping [("A", "A")]
  /\ rewrite_formula "''A!B1" [("A", "A")] = "'A!B1"
  /\ rewrite_formula (rewrite_formula "''A!B1" [("A", "A")]) [("A", "A")] = "A!B1"
  /\ rewrite_formula (rewrite_formula "''A!B1" [("A", "A")]) [("A", "A")]
     <> rewrite_formula "''A!B1" [("A", "A")].
Proof.
  split; [exact identity_mapping_A|].
  split; [reflexivity|]. split; [reflexivity|]. vm_compute. discriminate.
Qed.

(** ** Loops over the workbook *)

Section ForEach.
Context {A : Type}.
Variable body : A -> A * option exn.

(** Whatever stops the loop, every object is related to what it was by a
    relation that holds of each object and itself and of each object and
    what [body] makes of it. *)
Lemma for_each_Forall2 (R : A -> A -> Prop) :
  (forall x, R x x) ->
  (forall x, R x (fst (body x))) ->
  forall l, Forall2 R l (fst (for_each body l)).
Proof.
  intros Hrefl Hbody. induction l as [|x rest IH]; simpl.
  - constructor.
  - specialize (Hbody x). destruct (body x) as [x' [e|]]; simpl in *.
    + constructor; [exact Hbody|].
      clear - Hrefl. induction rest; constructor; auto.
    + destruct (for_each body rest) as [rest' r]. simpl in *.
      constructor; assumption.
Qed.

(** The loop runs to its end when [body] raises on none of the objects. *)
Lemma for_each_completes :
  forall l, Forall (fun x => snd (body x) = None) l ->
            snd (for_each body l) = None.
Proof.
  induction l as [|x rest IH]; simpl; intros H.
  - reflexivity.
  - inversion H as [|? ? Hx Hrest]; subst.
    destruct (body x) as [x' [e|]]; simpl in *; [discriminate|].
    specialize (IH Hrest).
    destruct (for_each body rest) as [rest' r]. exact IH.
Qed.
End ForEach.

Lemma Forall2_refl {A : Type} (R : A -> A -> Prop) :
  (forall x, R x x) -> forall l, Forall2 R l l.
Proof. intros H. induction l; constructor; auto. Qed.

Lemma Forall2_compose {A : Type} (R S T : A -> A -> Prop) :
  (forall x y z, R x y -> S y z -> T x z) ->
  forall l1 l2 l3, Forall2 R l1 l2 -> Forall2 S l2 l3 -> Forall2 T l1 l3.
Proof.
  intros H l1 l2 l3 H12. revert l3.
  induction H12 as [|x y l1 l2 Hxy _ IH]; intros l3 H23; inversion H23; subst.
  - constructor.
  - constructor; eauto.
Qed.

Lemma cell_frame_refl (c : Cell) : cell_frame c c.
Proof. unfold cell_frame. auto 6. Qed.

Lemma sheet_frame_refl (s : Sheet) : sheet_frame s s.
Proof.
  split; [reflexivity|].
  apply Forall2_refl. intros row. apply Forall2_refl. exact cell_frame_refl.
Qed.

Lemma update_cell_frame (regex : list string) (mapping : dict) (c : Cell) :
  cell_frame c (fst (update_cell regex mapping c)).
Proof.
  unfold update_cell.
  destruct (String.eqb_spec (data_type c) "f") as [Hf|Hf];
    [|apply cell_frame_refl].
  destruct (truthy (value c)); [|apply cell_frame_refl].
  destruct (value c) as [|text|n|b] eqn:V; try apply cell_frame_refl.
  unfold cell_frame. simpl. repeat split; auto.
  - intros Hnf. contradiction.
  - right. rewrite V. eauto.
Qed.

Lemma update_sheet_frame (regex : list string) (mapping : dict) (s : Sheet) :
  title (fst (update_sheet regex mapping s)) = title s
  /\ sheet_frame s (fst (update_sheet regex mapping s)).
Proof.
  unfold update_sheet.
  pose proof (for_each_Forall2 (for_each (update_cell regex mapping))
                (Forall2 cell_frame)
                (Forall2_refl _ cell_frame_refl)
                (for_each_Forall2 (update_cell regex mapping) cell_frame
                   cell_frame_refl (update_cell_frame regex mapping))
                (rows s)) as H.
  destruct (for_each (for_each (update_cell regex mapping)) (rows s)) as [rows' r].
  simpl in *. split; [reflexivity|]. split; [reflexivity | exact H].
Qed.

Lemma update_formulas_frame (regex : list string) (mapping : dict) (wb : Workbook) :
  Forall2 (fun s s' => title s' = title s /\ sheet_frame s s')
          wb (fst (update_formulas regex mapping wb)).
Proof.
  unfold update_formulas. apply for_each_Forall2.
  - intros s. split; [reflexivity | apply sheet_frame_refl].
  - apply update_sheet_frame.
Qed.

(** The loop over the titles changes nothing of a sheet but its title,
    wherever it stops. *)
Lemma title_loop_frame (mapping : dict) :
  forall (wb : Workbook) (renamed : list string),
    Forall2 (fun s s' => sheet_state s' = sheet_state s /\ rows s' = rows s)
            wb (fst (title_loop mapping renamed wb)).
Proof.
  induction wb as [|sheet rest IH]; intros renamed; cbn [title_loop].
  - constructor.
  - destruct (dict_get mapping (title sheet)) as [new_title|];
      [|apply Forall2_refl; auto].
    destruct (title_setter (renamed ++ map title (sheet :: rest)) (title sheet) new_title)
      as [stored|e]; [|apply Forall2_refl; auto].
    specialize (IH (renamed ++ [stored])%list).
    destruct (title_loop mapping (renamed ++ [stored]) rest) as [rest' r].
    constructor; [simpl; auto | exact IH].
Qed.

Lemma update_titles_frame (mapping : dict) (wb : Workbook) :
  Forall2 (fun s s' => sheet_state s' = sheet_state s /\ rows s' = rows s)
          wb (fst (update_titles mapping wb)).
Proof. apply title_loop_frame. Qed.

(** C9.  Whatever table it is given and however it ends, the handler leaves
    the workbook with the same sheets in the same order, each with the
    attributes it had but for its title, the same rows and the same cells in
    each row; a cell keeps its coordinate, its data type and its style; a
    cell that is not a formula keeps its value; and a value that changed was
    the text of a formula and became a text. *)
Theorem rename_changes_titles_and_formulas_only (wb : Workbook) (edited_df : EditedFrame) :
  Forall2 sheet_frame wb (workbook_of (export_workbook wb edited_df))
  /\ List.length (workbook_of (export_workbook wb edited_df)) = List.length wb.
Proof.
  assert (H : Forall2 sheet_frame wb (workbook_of (export_workbook wb edited_df))).
  { unfold export_workbook.
    destruct (collect_names wb 0 edited_df []) as [mapping|e]; simpl;
      [|apply Forall2_refl, sheet_frame_refl].
    pose proof (update_titles_frame mapping wb) as H1.
    destruct (update_titles mapping wb) as [wb1 [e|]]; simpl in *.
    - revert H1. apply Forall2_impl. intros s s' [Hst Hrows].
      split; [exact Hst|]. rewrite Hrows.
      apply Forall2_refl. intros row. apply Forall2_refl, cell_frame_refl.
    - pose proof (update_formulas_frame
                    (sheet_names_pattern (dict_keys mapping)) mapping wb1) as H2.
      assert (H3 : Forall2 sheet_frame wb
                     (fst (update_formulas (sheet_names_pattern (dict_keys mapping))
                             mapping wb1))).
      { revert H1 H2. apply Forall2_compose.
        intros x y z [Hst Hrows] [_ [Hst' Hrows']].
        split; [congruence|]. now rewrite <- Hrows. }
      destruct (update_formulas (sheet_names_pattern (dict_keys mapping)) mapping wb1)
        as [wb2 [e|]]; exact H3. }
  split; [exact H|]. symmetry. now apply Forall2_length in H.
Qed.

(** ** Renaming the sheets *)

Section Presented.
Variable M : dict.
Variable edited_df : EditedFrame.

End Presented.

(** The titles the setter takes are the valid ones. *)
Lemma has_invalid_character_spec (value : string) :
  has_invalid_character value
  = existsb forbidden_in_title (list_ascii_of_string value).
Proof.
  apply eq_true_iff_eq. unfold has_invalid_character, invalid_title_characters.
  rewrite !existsb_exists. split.
  - intros (c & Hc & Hin). exists c. split; [now apply contains_In|].
    simpl in Hc. repeat (destruct Hc as [<- | Hc]; [reflexivity|]). contradiction.
  - intros (c & Hin & Hc). exists c. split; [|now apply contains_In].
    unfold forbidden_in_title in Hc. rewrite !orb_true_iff, !Ascii.eqb_eq in Hc.
    simpl. intuition auto.
Qed.

Lemma valid_title_spec (value : string) :
  valid_title value = negb (String.eqb value "") && negb (has_invalid_character value).
Proof. unfold valid_title. now rewrite has_invalid_character_spec. Qed.

(** The setter raises on the titles that are not valid, and on no other;
    what it raises is [ValueError]. *)
Lemma title_setter_raises (sheetnames : list string) (current value : string) (e : exn) :
  title_setter sheetnames current value = inr e ->
  e = ValueError /\ valid_title value = false.
Proof.
  unfold title_setter. rewrite valid_title_spec.
  destruct (String.eqb value ""); [intros H; injection H as <-; auto|].
  destruct (has_invalid_character value); [intros H; injection H as <-; auto|].
  destruct (String.eqb current value); discriminate.
Qed.

Lemma title_setter_stores (sheetnames : list string) (current value : string) :
  valid_title value = true ->
  exists stored, title_setter sheetnames current value = inl stored.
Proof.
  unfold title_setter. rewrite valid_title_spec. intros H.
  apply andb_true_iff in H. destruct H as (H1 & H2).
  apply negb_true_iff in H1, H2. rewrite H1, H2.
  destruct (String.eqb current value); eauto.
Qed.






Lemma update_cell_completes (regex : list string) (mapping : dict) (c : Cell) :
  formula_is_text c -> snd (update_cell regex mapping c) = None.
Proof.
  unfold formula_is_text, update_cell. intros H.
  destruct (String.eqb_spec (data_type c) "f") as [Hf|Hf]; [|reflexivity].
  destruct (truthy (value c)) eqn:T; [|reflexivity].
  destruct (H Hf eq_refl) as (text & ->). reflexivity.
Qed.

Lemma update_formulas_completes (regex : list string) (mapping : dict) (wb : Workbook) :
  formulas_are_text wb -> snd (update_formulas regex mapping wb) = None.
Proof.
  unfold formulas_are_text, update_formulas. intros H.
  apply for_each_completes. revert H. apply Forall_impl. intros sheet Hsheet.
  unfold update_sheet.
  assert (Hrows : snd (for_each (for_each (update_cell regex mapping)) (rows sheet)) = None).
  { apply for_each_completes. revert Hsheet. apply Forall_impl. intros row Hrow.
    apply for_each_completes. revert Hrow. apply Forall_impl.
    apply update_cell_completes. }
  destruct (for_each (for_each (update_cell regex mapping)) (rows sheet)). exact Hrows.
Qed.



Lemma formulas_are_text_same_rows (wb wb1 : Workbook) :
  Forall2 (fun s s1 => rows s1 = rows s) wb wb1 ->
  (formulas_are_text wb <-> formulas_are_text wb1).
Proof.
  unfold formulas_are_text.
  induction 1 as [|s s1 l l1 Hr _ IH]; [tauto|].
  split; intros H; inversion H; subst; constructor; try tauto; congruence.
Qed.


(** ** A table that does not fit the workbook *)

(** The mapping is collected from the names under the labels of the
    positions of the sheets and from nothing else of the table. *)
Lemma collect_names_ext (edited_df edited_df' : EditedFrame) :
  forall (worksheets : list Sheet) (idx : nat) (acc : dict),
    (forall i, i < List.length worksheets ->
               option_map New_Name (edited_df (idx + i))
               = option_map New_Name (edited_df' (idx + i))) ->
    collect_names worksheets idx edited_df acc
    = collect_names worksheets idx edited_df' acc.
Proof.
  induction worksheets as [|sheet rest IH]; intros idx acc H; simpl; [reflexivity|].
  pose proof (H 0 (Nat.lt_0_succ _)) as H0. rewrite Nat.add_0_r in H0.
  destruct (edited_df idx) as [row|], (edited_df' idx) as [row'|];
    simpl in H0; try discriminate; [|reflexivity].
  injection H0 as ->.
  destruct (New_Name row'); [|reflexivity].
  apply IH. intros i Hi.
  replace (S idx + i) with (idx + S i) by lia. apply H. simpl. lia.
Qed.

Lemma collect_names_fails (edited_df : EditedFrame) :
  forall (worksheets : list Sheet) (idx : nat) (acc : dict),
    (exists i, i < List.length worksheets /\ no_name_at edited_df (idx + i)) ->
    exists e, collect_names worksheets idx edited_df acc = inr e.
Proof.
  unfold no_name_at.
  induction worksheets as [|sheet rest IH]; intros idx acc (i & Hi & Hno); simpl in *;
    [lia|].
  destruct (edited_df idx) as [row|] eqn:E; [|eauto].
  destruct (New_Name row) as [new_name|] eqn:N; [|eauto].
  destruct i as [|i].
  - rewrite Nat.add_0_r, E in Hno. congruence.
  - apply IH. exists i. split; [lia|].
    now replace (S idx + i) with (idx + S i) by lia.
Qed.

Lemma export_workbook_ext (wb : Workbook) (edited_df edited_df' : EditedFrame) :
  collect_names wb 0 edited_df [] = collect_names wb 0 edited_df' [] ->
  export_workbook wb edited_df = export_workbook wb edited_df'.
Proof. unfold export_workbook. now intros ->. Qed.

(** C6, as the code has it.  When the table has no name for some sheet (no
    row under the label of its position, or a row whose New Name is empty),
    the handler fails and leaves the workbook as it was loaded: no title is
    changed.  The handler reads the New Name of the rows labelled with the
    positions of the sheets and nothing else of the table: the Original Name
    column and the rows under other labels, such as rows added after the
    last sheet, do not bear on what it does. *)
Theorem missing_name_fails_before_any_change :
  (forall wb edited_df,
      (exists i, i < List.length wb /\ no_name_at edited_df i) ->
      exists e, export_workbook wb edited_df = Failed e wb)
  /\ (forall wb edited_df edited_df',
        (forall i, i < List.length wb ->
                   option_map New_Name (edited_df i) = option_map New_Name (edited_df' i)) ->
        export_workbook wb edited_df = export_workbook wb edited_df')
  /\ (forall wb rows extra,
        List.length wb <= List.length rows ->
        export_workbook wb (range_index (rows ++ extra)%list)
        = export_workbook wb (range_index rows)).
Proof.
  split; [|split].
  - intros wb edited_df H.
    destruct (collect_names_fails edited_df wb 0 [] H) as (e & He).
    exists e. unfold export_workbook. now rewrite He.
  - intros wb edited_df edited_df' H. apply export_workbook_ext.
    apply collect_names_ext. intros i Hi. now apply H.
  - intros wb rows extra H. apply export_workbook_ext.
    apply collect_names_ext. intros i Hi. simpl. unfold range_index.
    rewrite nth_error_app1 by lia. reflexivity.
Qed.


(** ** Formulas without references, and references to plain names *)

Lemma regex_match_needs_bang (branches : list string) (s : string) :
  contains "!" s = false -> regex_match branches s = None.
Proof.
  intros Hs. destruct (regex_match branches s) as [m|] eqn:E; [|reflexivity].
  apply regex_match_sound in E. destruct E as (E & _).
  rewrite E, !contains_app in Hs. simpl in Hs.
  rewrite !orb_true_r in Hs. discriminate.
Qed.

(** X1.  A formula without ["!"] is returned as it is, whatever the
    mapping. *)
Theorem formula_without_bang_is_kept (formula : string) (mapping : dict) :
  contains "!" formula = false ->
  rewrite_formula formula mapping = formula.
Proof.
  unfold rewrite_formula, replace_sheet_names_in_formula.
  induction formula as [|c rest IH]; intros H; rewrite sub_step.
  - now rewrite regex_match_empty.
  - rewrite (regex_match_needs_bang _ _ H).
    simpl in H. destruct (Ascii.eqb c "!"); [discriminate|].
    now rewrite IH.
Qed.

Lemma formula_without_bang_is_kept_witness :
  rewrite_formula "=SUM(A1:B2)*2" mapping_two = "=SUM(A1:B2)*2".
Proof. apply formula_without_bang_is_kept. reflexivity. Defined.

(** Two texts that begin with a plain name followed by a quote or a ["!"]
    begin with the same name. *)
Lemma plain_prefix_unique (n n' x x' : string) :
  contains "'" n = false -> contains "!" n = false ->
  contains "'" n' = false -> contains "!" n' = false ->
  (exists c t, x = String c t /\ (c = "'"%char \/ c = "!"%char)) ->
  (exists c t, x' = String c t /\ (c = "'"%char \/ c = "!"%char)) ->
  n ++ x = n' ++ x' ->
  n = n' /\ x = x'.
Proof.
  revert n'. induction n as [|a n IH]; intros [|a' n'] Hq Hb Hq' Hb' Hx Hx' E;
    simpl in *.
  - auto.
  - destruct Hx as (c & t & -> & Hc). injection E as -> _.
    destruct Hc as [-> | ->]; simpl in *; discriminate.
  - destruct Hx' as (c & t & -> & Hc). injection E as -> _.
    destruct Hc as [-> | ->]; simpl in *; discriminate.
  - injection E as -> E.
    destruct (Ascii.eqb a' "'"); [discriminate|].
    destruct (Ascii.eqb a' "!"); [discriminate|].
    destruct (IH n' Hq Hb Hq' Hb' Hx Hx' E) as (-> & ->). auto.
Qed.

Lemma quote_then_bang (q rest : string) :
  is_quote q ->
  exists c t, q ++ "!" ++ rest = String c t /\ (c = "'"%char \/ c = "!"%char).
Proof. intros [-> | ->]; simpl; eauto. Qed.

(** With plain names in the pattern, a reference to one of them is matched
    as that name, with the quotes it has. *)
Lemma regex_match_reference (branches : list string) (q1 name q2 rest : string) :
  (forall b, In b branches -> plain_name b) ->
  In name branches -> is_quote q1 -> is_quote q2 ->
  regex_match branches (q1 ++ name ++ q2 ++ "!" ++ rest)
  = Some (mk_match q1 name q2 rest).
Proof.
  intros Hplain Hin Hq1 Hq2.
  destruct (regex_match branches (q1 ++ name ++ q2 ++ "!" ++ rest)) as [m|] eqn:E;
    [|now apply regex_match_complete in E].
  apply regex_match_sound in E.
  destruct m as [q1' name' q2' rest']. simpl in E.
  destruct E as (E & Hin' & Hq1' & Hq2').
  destruct (Hplain name Hin) as (Hne & Hq & Hb).
  destruct (Hplain name' Hin') as (Hne' & Hq' & Hb').
  assert (Hsame : q1 = q1' /\ name ++ q2 ++ "!" ++ rest = name' ++ q2' ++ "!" ++ rest').
  { destruct name as [|a name]; [congruence|].
    destruct name' as [|a' name']; [congruence|].
    simpl in Hq, Hq'.
    destruct (Ascii.eqb_spec a "'") as [->|Ha]; [discriminate|].
    destruct (Ascii.eqb_spec a' "'") as [->|Ha']; [discriminate|].
    destruct Hq1 as [-> | ->], Hq1' as [-> | ->]; simpl in E; inversion E; subst;
      try congruence; (split; [reflexivity | simpl; congruence]). }
  destruct Hsame as (<- & E').
  apply plain_prefix_unique in E'; auto using quote_then_bang.
  destruct E' as (<- & E').
  destruct Hq2 as [-> | ->], Hq2' as [-> | ->]; simpl in E'; inversion E';
    congruence.
Qed.

(** X2.  When the titles of the workbook are plain, a reference to the sheet
    [name], with a quote on either side or none, is rewritten to the new name
    of that sheet, written between quotes when it needs them, and the rest of
    the formula is rewritten after it. *)
Theorem reference_gets_the_name_of_its_sheet
    (mapping : dict) (name new_name q1 q2 rest : string) :
  (forall k, In k (dict_keys mapping) -> plain_name k) ->
  dict_get mapping name = Some new_name ->
  is_quote q1 -> is_quote q2 ->
  rewrite_formula (q1 ++ name ++ q2 ++ "!" ++ rest) mapping
  = written_name new_name ++ "!" ++ rewrite_formula rest mapping.
Proof.
  intros Hplain Hget Hq1 Hq2.
  pose proof (dict_get_key _ _ _ Hget) as Hkey.
  assert (Hregex : sheet_ref_regex mapping = dict_keys mapping)
    by (destruct mapping; [destruct Hkey | reflexivity]).
  unfold rewrite_formula, replace_sheet_names_in_formula.
  rewrite sub_step, Hregex.
  rewrite (regex_match_reference (dict_keys mapping) q1 name q2 rest Hplain Hkey Hq1 Hq2).
  cbn [after]. unfold replacer, group1. cbn [open_quote group2 close_quote].
  destruct (Hplain name Hkey) as (_ & Hq & _).
  rewrite (strip_quote_wrapped q1 name q2 Hq Hq1 Hq2).
  unfold dict_get_default. rewrite Hget.
  unfold written_name. now rewrite !append_assoc.
Qed.

Lemma reference_gets_the_name_of_its_sheet_witness :
  rewrite_formula ("'" ++ "Data" ++ "'" ++ "!" ++ "A1+Summary!B2") mapping_two
  = written_name "Raw Data" ++ "!" ++ rewrite_formula "A1+Summary!B2" mapping_two.
Proof.
  apply reference_gets_the_name_of_its_sheet.
  - intros k [<- | [<- | []]]; repeat split; discriminate.
  - reflexivity.
  - right; reflexivity.
  - right; reflexivity.
Defined.

(** X3.  What [replacer] writes for a match is read, by a pattern made of
    plain names among which the new name is, as a reference to the new name
    with both quotes or none: both exactly when the name needs them. *)
Theorem written_reference_is_read_back
    (mapping : dict) (m : ref_match) (new_names : list string) (rest : string) :
  (forall b, In b new_names -> plain_name b) ->
  In (replacement_name mapping (open_quote m) (group2 m) (close_quote m)) new_names ->
  exists q,
    regex_match new_names (replacer mapping m ++ rest)
    = Some (mk_match q
              (replacement_name mapping (open_quote m) (group2 m) (close_quote m))
              q rest)
    /\ (q = "'" <-> has_special
                      (replacement_name mapping (open_quote m) (group2 m) (close_quote m)))
    /\ is_quote q.
Proof.
  intros Hplain Hin. destruct m as [q1 name q2 after0]. cbn [open_quote group2 close_quote] in *.
  destruct (needs_quotes (replacement_name mapping q1 name q2)) eqn:Q.
  - assert (Q' : has_special (replacement_name mapping q1 name q2))
      by now apply needs_quotes_spec.
    exists "'". rewrite (replacer_quoted mapping q1 name q2 after0 Q'), !append_assoc.
    split; [|split; [split; [intros _; exact Q' | reflexivity] | right; reflexivity]].
    apply (regex_match_reference new_names "'"); auto; right; reflexivity.
  - assert (Q' : ~ has_special (replacement_name mapping q1 name q2))
      by (rewrite <- needs_quotes_spec; congruence).
    exists "". rewrite (replacer_bare mapping q1 name q2 after0 Q'), !append_assoc.
    split; [|split; [|left; reflexivity]].
    + exact (regex_match_reference new_names "" _ "" rest Hplain Hin
               (or_introl eq_refl) (or_introl eq_refl)).
    + split; [discriminate | intros Hsp; now apply Q' in Hsp].
Qed.

Lemma written_reference_is_read_back_witness :
  exists q,
    regex_match ["Raw Data"; "Total"]
      (replacer mapping_two (mk_match "" "Data" "" "A1") ++ "A1")
    = Some (mk_match q (replacement_name mapping_two "" "Data" "") q "A1")
    /\ (q = "'" <-> has_special (replacement_name mapping_two "" "Data" ""))
    /\ is_quote q.
Proof.
  apply (written_reference_is_read_back mapping_two (mk_match "" "Data" "" "A1")
           ["Raw Data"; "Total"] "A1").
  - intros b [<- | [<- | []]]; repeat split; discriminate.
  - left. reflexivity.
Defined.

(** ** How the handler ends *)

Lemma collect_names_has_titles (edited_df : EditedFrame) :
  forall (worksheets : list Sheet) (idx : nat) (acc mapping : dict),
    collect_names worksheets idx edited_df acc = inl mapping ->
    forall t, In t (map title worksheets) \/ dict_get acc t <> None ->
              dict_get mapping t <> None.
Proof.
  induction worksheets as [|sheet rest IH]; simpl; intros idx acc mapping H t Ht.
  - injection H as <-. tauto.
  - destruct (edited_df idx) as [row|]; [|discriminate].
    destruct (New_Name row) as [new_name|]; [|discriminate].
    apply (IH _ _ _ H t). rewrite dict_get_set.
    destruct (String.eqb_spec (title sheet) t) as [Heq|Hne].
    + right. discriminate.
    + destruct Ht as [[Ht | Ht] | Ht]; [contradiction | now left | now right].
Qed.

Lemma collect_names_succeeds (edited_df : EditedFrame) :
  forall (worksheets : list Sheet) (idx : nat) (acc : dict),
    (forall i, i < List.length worksheets -> ~ no_name_at edited_df (idx + i)) ->
    exists mapping, collect_names worksheets idx edited_df acc = inl mapping.
Proof.
  unfold no_name_at.
  induction worksheets as [|sheet rest IH]; simpl; intros idx acc H; [eauto|].
  pose proof (H 0 (Nat.lt_0_succ _)) as H0. rewrite Nat.add_0_r in H0.
  destruct (edited_df idx) as [row|]; [|tauto].
  destruct (New_Name row) as [new_name|]; [|tauto].
  apply IH. intros i Hi.
  replace (S idx + i) with (idx + S i) by lia. apply H. lia.
Qed.


Section ForEachMore.
Context {A : Type}.
Variable body : A -> A * option exn.

Lemma for_each_None_all :
  forall l, snd (for_each body l) = None ->
            Forall (fun x => snd (body x) = None) l.
Proof.
  induction l as [|x rest IH]; simpl; intros H; [constructor|].
  destruct (body x) as [x' [e|]] eqn:E; simpl in *; [discriminate|].
  destruct (for_each body rest) as [rest' r]. simpl in *.
  constructor; [now rewrite E | now apply IH].
Qed.

(** A loop that raises nothing has applied [body] to every object. *)
Lemma for_each_map :
  forall l, snd (for_each body l) = None ->
            fst (for_each body l) = map (fun x => fst (body x)) l.
Proof.
  induction l as [|x rest IH]; simpl; intros H; [reflexivity|].
  destruct (body x) as [x' [e|]] eqn:E; simpl in *; [discriminate|].
  destruct (for_each body rest) as [rest' r]. simpl in *.
  now rewrite IH.
Qed.
End ForEachMore.

Lemma title_setter_valid (sheetnames : list string) (current value stored : string) :
  title_setter sheetnames current value = inl stored -> valid_title value = true.
Proof.
  unfold title_setter. rewrite valid_title_spec.
  destruct (String.eqb value ""); [discriminate|].
  destruct (has_invalid_character value); [discriminate | reflexivity].
Qed.

(** A loop over the titles that runs to its end found every name valid. *)
Lemma title_loop_None (mapping : dict) :
  forall (wb : Workbook) (renamed : list string),
    snd (title_loop mapping renamed wb) = None ->
    forall sheet, In sheet wb ->
      exists new_title, dict_get mapping (title sheet) = Some new_title
                        /\ valid_title new_title = true.
Proof.
  induction wb as [|s rest IH]; intros renamed H sheet Hs; [destruct Hs|].
  cbn [title_loop] in H.
  destruct (dict_get mapping (title s)) as [new_title|] eqn:G; [|discriminate].
  destruct (title_setter (renamed ++ map title (s :: rest)) (title s) new_title)
    as [stored|e] eqn:T; [|discriminate].
  destruct (title_loop mapping (renamed ++ [stored]) rest) as [rest' r] eqn:R.
  simpl in H. subst r.
  destruct Hs as [<- | Hs].
  - exists new_title. split; [exact G|]. exact (title_setter_valid _ _ _ _ T).
  - apply (IH (renamed ++ [stored])%list); [now rewrite R | exact Hs].
Qed.

Lemma title_loop_valid (mapping : dict) :
  forall (wb : Workbook) (renamed : list string),
    (forall sheet, In sheet wb ->
       exists new_title, dict_get mapping (title sheet) = Some new_title
                         /\ valid_title new_title = true) ->
    snd (title_loop mapping renamed wb) = None.
Proof.
  induction wb as [|s rest IH]; intros renamed H; [reflexivity|].
  cbn [title_loop].
  destruct (H s (or_introl eq_refl)) as (new_title & G & V). rewrite G.
  destruct (title_setter_stores (renamed ++ map title (s :: rest)) (title s) new_title V)
    as (stored & T).
  rewrite T.
  specialize (IH (renamed ++ [stored])%list (fun x Hx => H x (or_intror Hx))).
  destruct (title_loop mapping (renamed ++ [stored]) rest) as [rest' r].
  exact IH.
Qed.

(** Where the loop over the titles stops: at the first sheet whose name the
    setter refuses; the sheets before it bear what the setter stored, that
    sheet and the sheets after it are as they were. *)
Lemma title_loop_raises (mapping : dict) :
  forall (wb : Workbook) (renamed : list string) (e : exn),
    (forall sheet, In sheet wb -> dict_get mapping (title sheet) <> None) ->
    snd (title_loop mapping renamed wb) = Some e ->
    e = ValueError
    /\ exists done done' sheet rest new_title,
         wb = (done ++ sheet :: rest)%list
         /\ fst (title_loop mapping renamed wb) = (done' ++ sheet :: rest)%list
         /\ Forall2 (fun s s' => sheet_state s' = sheet_state s /\ rows s' = rows s)
                    done done'
         /\ dict_get mapping (title sheet) = Some new_title
         /\ valid_title new_title = false.
Proof.
  induction wb as [|s rest IH]; intros renamed e Hkeys H; [discriminate|].
  cbn [title_loop] in *.
  destruct (dict_get mapping (title s)) as [new_title|] eqn:G;
    [|exfalso; now apply (Hkeys s (or_introl eq_refl))].
  destruct (title_setter (renamed ++ map title (s :: rest)) (title s) new_title)
    as [stored|e'] eqn:T.
  - specialize (IH (renamed ++ [stored])%list e (fun x Hx => Hkeys x (or_intror Hx))).
    destruct (title_loop mapping (renamed ++ [stored]) rest) as [rest' r].
    simpl in *.
    destruct (IH H)
      as (He & done & done' & sheet & rest0 & v & Hwb & Hwb' & Hd & Hv & Hi).
    split; [exact He|].
    exists (s :: done), (set_title s stored :: done'), sheet, rest0, v.
    rewrite Hwb, Hwb'. repeat split; auto.
  - simpl in H. injection H as <-.
    destruct (title_setter_raises _ _ _ _ T) as (-> & V).
    split; [reflexivity|].
    exists [], [], s, rest, new_title. repeat split; auto.
Qed.

(** X4.  The lookup of line 141 never fails: once the mapping is collected,
    every title of the workbook is one of its keys.  The loop over the
    titles can stop only on the [ValueError] of the setter, and it runs to
    its end exactly when the name of every sheet is a valid title: not empty
    and without any of [\ * ? : / [ ]]. *)
Theorem title_lookup_never_fails (wb : Workbook) (edited_df : EditedFrame) (mapping : dict) :
  collect_names wb 0 edited_df [] = inl mapping ->
  (forall sheet, In sheet wb -> dict_get mapping (title sheet) <> None)
  /\ (forall e, snd (update_titles mapping wb) = Some e -> e = ValueError)
  /\ (snd (update_titles mapping wb) = None
      <-> forall sheet, In sheet wb ->
            exists new_title, dict_get mapping (title sheet) = Some new_title
                              /\ valid_title new_title = true).
Proof.
  intros C.
  assert (Hkeys : forall sheet, In sheet wb -> dict_get mapping (title sheet) <> None).
  { intros sheet Hs. apply (collect_names_has_titles _ _ _ _ _ C).
    left. now apply in_map. }
  split; [exact Hkeys|]. unfold update_titles. split.
  - intros e H. now destruct (title_loop_raises mapping wb [] e Hkeys H).
  - split; [apply title_loop_None | apply title_loop_valid].
Qed.


Lemma update_cell_None (regex : list string) (mapping : dict) (c : Cell) :
  snd (update_cell regex mapping c) = None -> formula_is_text c.
Proof.
  unfold update_cell, formula_is_text. intros H Hf Ht.
  rewrite Hf, Ht in H. simpl in H.
  destruct (value c); try discriminate. eauto.
Qed.

Lemma update_formulas_None (regex : list string) (mapping : dict) (wb : Workbook) :
  snd (update_formulas regex mapping wb) = None -> formulas_are_text wb.
Proof.
  unfold update_formulas, formulas_are_text. intros H.
  apply for_each_None_all in H. revert H. apply Forall_impl. intros sheet Hs.
  unfold update_sheet in Hs.
  destruct (for_each (for_each (update_cell regex mapping)) (rows sheet)) as [rows' r] eqn:E.
  simpl in Hs. subst r.
  assert (H : snd (for_each (for_each (update_cell regex mapping)) (rows sheet)) = None)
    by now rewrite E.
  apply for_each_None_all in H. revert H. apply Forall_impl. intros row Hrow.
  apply for_each_None_all in Hrow. revert Hrow. apply Forall_impl.
  apply update_cell_None.
Qed.

(** X6.  The handler saves the workbook exactly when the table holds a name
    under the label of the position of every sheet, the name collected for
    every sheet is a valid title (not empty, without any of
    [\ * ? : / [ ]]), and every formula cell of the workbook holds a text or
    nothing. *)
Theorem saved_exactly_when (wb : Workbook) (edited_df : EditedFrame) :
  (exists wb', export_workbook wb edited_df = Saved wb')
  <-> ((forall i, i < List.length wb -> ~ no_name_at edited_df i)
       /\ (forall mapping sheet new_title,
             collect_names wb 0 edited_df [] = inl mapping ->
             In sheet wb ->
             dict_get mapping (title sheet) = Some new_title ->
             valid_title new_title = true)
       /\ formulas_are_text wb).
Proof.
  unfold export_workbook. split.
  - intros (wb' & H).
    destruct (collect_names wb 0 edited_df []) as [mapping|e] eqn:C; [|discriminate].
    pose proof (title_loop_None mapping wb []) as Hvalid.
    pose proof (update_titles_frame mapping wb) as Hall.
    fold (update_titles mapping wb) in Hvalid.
    destruct (update_titles mapping wb) as [wb1 [e1|]]; [discriminate|].
    simpl in Hvalid, Hall.
    split; [|split].
    + intros i Hi Hno.
      destruct (collect_names_fails edited_df wb 0 []) as (e & He); [eauto|].
      congruence.
    + intros mapping' sheet new_title Hm Hs Hget. injection Hm as <-.
      destruct (Hvalid eq_refl sheet Hs) as (v & Hv & Hok). congruence.
    + pose proof (update_formulas_None (sheet_names_pattern (dict_keys mapping)) mapping wb1)
        as Hnone.
      destruct (update_formulas (sheet_names_pattern (dict_keys mapping)) mapping wb1)
        as [wb2 [e2|]]; [discriminate|].
      apply (formulas_are_text_same_rows wb wb1); [|now apply Hnone].
      revert Hall. apply Forall2_impl. tauto.
  - intros (Hnames & Hvalid & Htext).
    destruct (collect_names_succeeds edited_df wb 0 [] Hnames) as (mapping & C).
    rewrite C.
    assert (Hkeys : forall sheet, In sheet wb -> dict_get mapping (title sheet) <> None).
    { intros sheet Hs. apply (collect_names_has_titles _ _ _ _ _ C).
      left. now apply in_map. }
    pose proof (title_loop_valid mapping wb []) as Hruns.
    pose proof (update_titles_frame mapping wb) as Hall.
    fold (update_titles mapping wb) in Hruns.
    destruct (update_titles mapping wb) as [wb1 [e1|]].
    + exfalso. simpl in Hruns. assert (Some e1 = None); [|discriminate].
      apply Hruns. intros sheet Hs.
      destruct (dict_get mapping (title sheet)) as [v|] eqn:G;
        [|now apply Hkeys in G].
      exists v. split; [reflexivity|]. now apply (Hvalid mapping sheet v).
    + simpl in Hall.
      assert (Htext1 : formulas_are_text wb1).
      { apply (formulas_are_text_same_rows wb wb1); [|exact Htext].
        revert Hall. apply Forall2_impl. tauto. }
      pose proof (update_formulas_completes (sheet_names_pattern (dict_keys mapping))
                    mapping wb1 Htext1) as Hc.
      destruct (update_formulas (sheet_names_pattern (dict_keys mapping)) mapping wb1)
        as [wb2 [e2|]]; [discriminate | eauto].
Qed.

(** X7.  When the table lacks a name for a sheet, the exception is that of
    the first such position: [KeyError] when the table has no row under that
    label, [TypeError] when the New Name of the row is empty; the workbook is
    as it was loaded. *)
Theorem first_missing_name_decides_the_exception
    (wb : Workbook) (edited_df : EditedFrame) (i : nat) :
  i < List.length wb ->
  (forall j, j < i -> ~ no_name_at edited_df j) ->
  no_name_at edited_df i ->
  export_workbook wb edited_df
  = Failed (match edited_df i with
            | None => KeyError
            | Some _ => TypeError
            end) wb.
Proof.
  intros Hi Hbefore Hno. unfold export_workbook.
  assert (H : forall worksheets idx acc,
             idx + List.length worksheets = List.length wb ->
             idx <= i ->
             collect_names worksheets idx edited_df acc
             = inr (match edited_df i with
                    | None => KeyError
                    | Some _ => TypeError
                    end)).
  { induction worksheets as [|sheet rest IH]; simpl; intros idx acc Hlen Hle; [lia|].
    destruct (Nat.eq_dec idx i) as [->|Hne].
    - unfold no_name_at in Hno.
      destruct (edited_df i) as [row|]; [|reflexivity].
      now rewrite Hno.
    - assert (Hlt : idx < i) by lia.
      pose proof (Hbefore idx Hlt) as Hidx. unfold no_name_at in Hidx.
      destruct (edited_df idx) as [row|]; [|tauto].
      destruct (New_Name row) as [new_name|]; [|tauto].
      apply IH; lia. }
  rewrite (H wb 0 []); [reflexivity | reflexivity | lia].
Qed.

(** ** What the handler writes *)

Lemma update_cell_rewritten (mapping : dict) (c : Cell) :
  snd (update_cell (sheet_ref_regex mapping) mapping c) = None ->
  fst (update_cell (sheet_ref_regex mapping) mapping c) = rewritten_cell mapping c.
Proof.
  unfold update_cell, rewritten_cell, rewrite_formula.
  destruct (String.eqb (data_type c) "f"); [|reflexivity].
  destruct (value c) as [|text|n|b]; simpl.
  - reflexivity.
  - destruct (String.eqb text ""); reflexivity.
  - destruct (Z.eqb n 0); simpl; [reflexivity | discriminate].
  - destruct b; simpl; [discriminate | reflexivity].
Qed.

Lemma update_sheet_rewritten (mapping : dict) (s : Sheet) :
  snd (update_sheet (sheet_ref_regex mapping) mapping s) = None ->
  fst (update_sheet (sheet_ref_regex mapping) mapping s)
  = mk_sheet (title s) (sheet_state s) (map (map (rewritten_cell mapping)) (rows s)).
Proof.
  unfold update_sheet.
  destruct (for_each (for_each (update_cell (sheet_ref_regex mapping) mapping)) (rows s))
    as [rows' r] eqn:E.
  simpl. intros ->. unfold set_rows. f_equal.
  assert (Hnone : snd (for_each (for_each (update_cell (sheet_ref_regex mapping) mapping))
                         (rows s)) = None) by now rewrite E.
  pose proof (for_each_map _ _ Hnone) as Hmap. rewrite E in Hmap. simpl in Hmap.
  rewrite Hmap. apply map_ext_in. intros row Hrow.
  apply for_each_None_all in Hnone. rewrite Forall_forall in Hnone.
  specialize (Hnone row Hrow).
  rewrite (for_each_map _ _ Hnone). apply map_ext_in. intros c Hc.
  apply for_each_None_all in Hnone. rewrite Forall_forall in Hnone.
  now apply update_cell_rewritten, Hnone.
Qed.

(** X9.  In a saved workbook every sheet bears the title the loop of line
    141 gave it, keeps its other attributes and has, in the place of every
    cell, the cell itself, or the cell with its formula rewritten with the
    collected mapping when it is a formula whose text is not empty. *)
Theorem saved_workbook_is_rewritten_cell_by_cell
    (wb : Workbook) (edited_df : EditedFrame) (wb' : Workbook) :
  export_workbook wb edited_df = Saved wb' ->
  exists mapping wb1,
    collect_names wb 0 edited_df [] = inl mapping
    /\ update_titles mapping wb = (wb1, None)
    /\ Forall2 (fun sheet sheet1 =>
                  sheet_state sheet1 = sheet_state sheet /\ rows sheet1 = rows sheet)
               wb wb1
    /\ wb' = map (fun sheet1 =>
                    mk_sheet (title sheet1) (sheet_state sheet1)
                             (map (map (rewritten_cell mapping)) (rows sheet1))) wb1.
Proof.
  unfold export_workbook.
  destruct (collect_names wb 0 edited_df []) as [mapping|e] eqn:C; [|discriminate].
  change (sheet_names_pattern (dict_keys mapping)) with (sheet_ref_regex mapping).
  pose proof (update_titles_frame mapping wb) as Hall.
  destruct (update_titles mapping wb) as [wb1 [e1|]] eqn:T; [discriminate|].
  destruct (update_formulas (sheet_ref_regex mapping) mapping wb1) as [wb2 [e2|]] eqn:F;
    [discriminate|].
  intros H. injection H as <-. exists mapping, wb1.
  split; [reflexivity|]. split; [exact T|]. split; [exact Hall|].
  assert (Fnone : snd (update_formulas (sheet_ref_regex mapping) mapping wb1) = None)
    by now rewrite F.
  pose proof (for_each_map _ _ Fnone) as Fmap.
  unfold update_formulas in F. rewrite F in Fmap. simpl in Fmap. subst wb2.
  apply for_each_None_all in Fnone. rewrite Forall_forall in Fnone.
  apply map_ext_in. intros sheet Hs.
  now rewrite update_sheet_rewritten by (now apply Fnone).
Qed.

(** ** The export of a table left as proposed *)






(** ** The files of a session *)

Section Files.
Variable bytes : Type.
Variable load_workbook : bytes -> option Workbook.
Variable save : Workbook -> option bytes.

Lemma set_prefix_and_table_length (l : list (file_entry bytes)) (p : string) (d : EditedFrame) :
  forall i, List.length (set_prefix_and_table l i p d) = List.length l.
Proof.
  induction l as [|e rest IH]; intros [|i]; simpl; auto.
Qed.

Lemma set_prefix_and_table_nth (l : list (file_entry bytes)) (p : string) (d : EditedFrame) :
  forall i j,
    nth_error (set_prefix_and_table l i p d) j
    = if Nat.eqb j i
      then option_map (fun e => mk_entry (file_name e) (file_bytes e) p d) (nth_error l j)
      else nth_error l j.
Proof.
  induction l as [|e rest IH]; intros [|i] [|j]; simpl;
    try reflexivity; try (destruct (Nat.eqb j i); reflexivity).
  apply IH.
Qed.

(** X13.  For a position within [file_data], lines 122-123 keep the file
    name and the bytes stored there and replace the prefix and the table by
    those of the file now at that position; the list keeps its length and its
    other entries. *)
Theorem record_within_keeps_name_and_bytes
    (file_data : list (file_entry bytes)) (i : nat) (stored current : file_entry bytes) :
  nth_error file_data i = Some stored ->
  List.length (record_file file_data i current) = List.length file_data
  /\ nth_error (record_file file_data i current) i = Some (refreshed stored current)
  /\ (forall j, j <> i ->
                nth_error (record_file file_data i current) j = nth_error file_data j).
Proof.
  intros H. unfold record_file.
  assert (Hlt : i < List.length file_data) by (apply nth_error_Some; congruence).
  destruct (Nat.leb_spec (List.length file_data) i) as [Hle|_]; [lia|].
  split; [apply set_prefix_and_table_length|]. split.
  - rewrite set_prefix_and_table_nth, Nat.eqb_refl, H. reflexivity.
  - intros j Hj. rewrite set_prefix_and_table_nth.
    destruct (Nat.eqb_spec j i); [contradiction | reflexivity].
Qed.

(** X14.  A file recorded at a position past the end of [file_data] is put
    at the end of the list, which is not its position when the list is
    shorter: nothing is stored at its position. *)
Theorem record_past_the_end_appends
    (file_data : list (file_entry bytes)) (i : nat) (current : file_entry bytes) :
  List.length file_data < i ->
  record_file file_data i current = (file_data ++ [current])%list
  /\ nth_error (record_file file_data i current) (List.length file_data) = Some current
  /\ nth_error (record_file file_data i current) i = None.
Proof.
  intros H. unfold record_file.
  destruct (Nat.leb_spec (List.length file_data) i) as [_|Hlt]; [|lia].
  split; [reflexivity|]. split.
  - rewrite nth_error_app2 by lia. now rewrite Nat.sub_diag.
  - apply nth_error_None. rewrite length_app. simpl. lia.
Qed.

Lemma upload_loop_appends :
  forall (uploaded_files file_data : list (file_entry bytes)) (i : nat),
    List.length file_data <= i ->
    upload_loop load_workbook uploaded_files i file_data
    = (file_data ++ filter (readable load_workbook) uploaded_files)%list.
Proof.
  induction uploaded_files as [|f rest IH]; intros file_data i Hle; simpl.
  - now rewrite app_nil_r.
  - unfold readable at 1.
    destruct (load_workbook (file_bytes f)) as [wb|].
    + unfold record_file.
      destruct (Nat.leb_spec (List.length file_data) i) as [_|Hlt]; [|lia].
      rewrite IH by (rewrite length_app; simpl; lia).
      now rewrite <- app_assoc.
    + apply IH. lia.
Qed.

(** X15.  On the first run, [file_data] being empty, the loop of line 59
    stores the files that can be read, in the order of the upload, one after
    the other: a file that cannot be read takes no place, so the files after
    it are stored before their positions in the upload. *)
Theorem first_run_stores_the_readable_files (uploaded_files : list (file_entry bytes)) :
  upload_loop load_workbook uploaded_files 0 []
  = filter (readable load_workbook) uploaded_files.
Proof. now rewrite upload_loop_appends. Qed.




Lemma export_all_loop_spec :
  forall (file_data : list (file_entry bytes)) (zip_file : list (string * bytes)) (ok : bool),
    export_all_loop load_workbook save file_data zip_file ok
    = ((zip_file ++ flat_map (fun data =>
                                match process_file load_workbook save data with
                                | Some output => [(file_name data, output)]
                                | None => []
                                end) file_data)%list,
       ok && forallb (fun data =>
                        match process_file load_workbook save data with
                        | Some _ => true
                        | None => false
                        end) file_data).
Proof.
  induction file_data as [|data rest IH]; intros zip_file ok; simpl.
  - now rewrite app_nil_r, andb_true_r.
  - destruct (process_file load_workbook save data) as [output|]; rewrite IH; simpl.
    + now rewrite <- app_assoc.
    + now rewrite andb_false_r.
Qed.

(** X17.  The archive is handed out exactly when every file of [file_data]
    is read, renamed and written without an exception, and it then holds one
    entry for each file, in order, under the name of the file; one file that
    fails withholds the archive with the entries of all the others. *)
Theorem archive_exactly_when_every_file_is_written
    (file_data : list (file_entry bytes)) (zip_file : list (string * bytes)) :
  (export_all load_workbook save file_data = Some zip_file
   <-> Forall2 (fun data entry =>
                  fst entry = file_name data
                  /\ process_file load_workbook save data = Some (snd entry))
               file_data zip_file)
  /\ (export_all load_workbook save file_data = None
      <-> exists data, In data file_data /\ process_file load_workbook save data = None).
Proof.
  unfold export_all. rewrite export_all_loop_spec. simpl.
  revert zip_file.
  induction file_data as [|data rest IH]; intros zip_file; simpl.
  - split; split.
    + intros H. injection H as <-. constructor.
    + intros H. inversion H. reflexivity.
    + discriminate.
    + intros (data & [] & _).
  - destruct (process_file load_workbook save data) as [output|] eqn:P; simpl.
    + destruct (forallb _ rest) eqn:F.
      * split; split.
        -- intros H. injection H as <-. constructor; [auto|]. now apply IH.
        -- intros H. inversion H as [|? [n o] ? zs [Hn Ho] Hrest]; subst.
           simpl in *. apply IH in Hrest. congruence.
        -- discriminate.
        -- intros (d & [<- | Hin] & Hd); [congruence|].
           destruct (IH []) as (_ & (_ & Hnone)).
           assert (H : @None (list (string * bytes)) = None) by reflexivity.
           exfalso. specialize (Hnone (ex_intro _ d (conj Hin Hd))). discriminate.
      * split; split.
        -- discriminate.
        -- intros H. inversion H as [|? [n o] ? zs [Hn Ho] Hrest]; subst.
           apply IH in Hrest. discriminate.
        -- intros _. destruct (IH []) as (_ & (Hnone & _)).
           destruct (Hnone eq_refl) as (d & Hin & Hd). eauto.
        -- reflexivity.
    + split; split.
      * discriminate.
      * intros H. inversion H as [|? [n o] ? zs [Hn Ho] Hrest]; subst. congruence.
      * intros _. exists data. auto.
      * reflexivity.
Qed.
End Files.

Lemma record_within_keeps_name_and_bytes_witness :
  List.length (record_file [file_two; file_totals] 1 file_broken)
  = List.length [file_two; file_totals]
  /\ nth_error (record_file [file_two; file_totals] 1 file_broken) 1
     = Some (refreshed file_totals file_broken)
  /\ (forall j, j <> 1 ->
                nth_error (record_file [file_two; file_totals] 1 file_broken) j
                = nth_error [file_two; file_totals] j).
Proof.
  apply (record_within_keeps_name_and_bytes (option Workbook)
           [file_two; file_totals] 1 file_totals file_broken).
  reflexivity.
Defined.

Lemma record_past_the_end_appends_witness :
  record_file [file_two] 2 file_totals = [file_two; file_totals]
  /\ nth_error (record_file [file_two] 2 file_totals) (List.length [file_two])
     = Some file_totals
  /\ nth_error (record_file [file_two] 2 file_totals) 2 = None.
Proof.
  apply (record_past_the_end_appends (option Workbook) [file_two] 2 file_totals).
  simpl. lia.
Defined.


(** ** Default names of different sheets *)

Lemma decimal_inj (i j : nat) : decimal i = decimal j -> i = j.
Proof.
  unfold decimal. intros H.
  apply DecimalNat.Unsigned.to_uint_inj.
  assert (Hsome : Some (Nat.to_uint i) = Some (Nat.to_uint j)).
  { rewrite <- (NilEmpty.usu (Nat.to_uint i)), <- (NilEmpty.usu (Nat.to_uint j)).
    now rewrite H. }
  now injection Hsome.
Qed.

Lemma string_of_uint_no_space (d : Decimal.uint) :
  contains " " (NilEmpty.string_of_uint d) = false.
Proof. induction d; simpl; auto. Qed.

Lemma string_of_uint_leading_zero (d : Decimal.uint) (s : string) :
  NilEmpty.string_of_uint d = String "0" s ->
  exists d', d = Decimal.D0 d' /\ s = NilEmpty.string_of_uint d'.
Proof. destruct d; simpl; intros H; try discriminate. injection H as <-. eauto. Qed.

Lemma to_uint_no_leading_zero (n : nat) (u : Decimal.uint) :
  Nat.to_uint n = Decimal.D0 u -> u = Decimal.Nil.
Proof.
  intros H.
  assert (Hnorm : Nat.to_uint n = Decimal.unorm (Nat.to_uint n)).
  { rewrite <- (DecimalNat.Unsigned.to_of (Nat.to_uint n)).
    now rewrite DecimalNat.Unsigned.of_to. }
  rewrite H, DecimalFacts.unorm_D0 in Hnorm.
  assert (Hu : u = Decimal.Nil \/ u <> Decimal.Nil)
    by (destruct u; [now left | right; discriminate ..]).
  destruct Hu as [Hu | Hu]; [exact Hu|].
  pose proof (DecimalFacts.nb_digits_unorm u Hu) as Hle.
  rewrite <- Hnorm in Hle. simpl in Hle. lia.
Qed.

Lemma format_02d_inj (i j : nat) : format_02d i = format_02d j -> i = j.
Proof.
  assert (Hmixed : forall a b,
             String.length (decimal b) < 2 -> 2 <= String.length (decimal a) ->
             decimal a <> "0" ++ decimal b).
  { unfold decimal. intros a b Hb Ha E. simpl in E.
    destruct (string_of_uint_leading_zero _ _ E) as (d' & Hd & Hs).
    apply to_uint_no_leading_zero in Hd. subst d'.
    rewrite E, Hs in Ha. simpl in Ha. lia. }
  unfold format_02d.
  destruct (Nat.ltb_spec (String.length (decimal i)) 2) as [Hi|Hi],
           (Nat.ltb_spec (String.length (decimal j)) 2) as [Hj|Hj]; intros E.
  - simpl in E. injection E as E. now apply decimal_inj.
  - symmetry in E. now apply Hmixed in E.
  - now apply Hmixed in E.
  - now apply decimal_inj.
Qed.

Lemma format_02d_no_space (i : nat) : contains " " (format_02d i) = false.
Proof.
  unfold format_02d, decimal.
  destruct (Nat.ltb _ 2); simpl; apply string_of_uint_no_space.
Qed.

Lemma before_first_space (a b x y : string) :
  contains " " a = false -> contains " " b = false ->
  a ++ String " " x = b ++ String " " y -> a = b.
Proof.
  revert b. induction a as [|c a IH]; intros [|c' b] Ha Hb E; simpl in *.
  - reflexivity.
  - injection E as <- _. simpl in Hb. discriminate.
  - injection E as -> _. simpl in Ha. discriminate.
  - injection E as -> E.
    destruct (Ascii.eqb c' " "); [discriminate|].
    now rewrite (IH b Ha Hb E).
Qed.

(** X18.  With a prefix, the default names of sheets at different positions
    differ whenever both fit in 31 characters, even when the sheets bear the
    same name: the two-digit position is part of the name. *)
Theorem default_names_differ_by_position
    (p : string) (i j : nat) (old_name old_name' : string) :
  p <> "" ->
  i <> j ->
  String.length (p ++ "." ++ format_02d (i + 1) ++ " " ++ old_name) <= 31 ->
  String.length (p ++ "." ++ format_02d (j + 1) ++ " " ++ old_name') <= 31 ->
  default_new_name p i old_name <> default_new_name p j old_name'.
Proof.
  intros Hp Hij Hi Hj E.
  rewrite !default_new_name_prefix in E by exact Hp.
  rewrite !slice_to_all in E by assumption.
  apply append_cancel_l in E. simpl in E. injection E as E.
  apply before_first_space in E; auto using format_02d_no_space.
  apply format_02d_inj in E. lia.
Qed.

Lemma default_names_differ_by_position_witness :
  default_new_name "Q1" 0 "Data" <> default_new_name "Q1" 1 "Data".
Proof.
  apply default_names_differ_by_position.
  - discriminate.
  - discriminate.
  - simpl. lia.
  - simpl. lia.
Defined.

End Openpyxl.

(** ** Examples of the handler at work

    The examples do not depend on how openpyxl numbers a name that is
    taken; where a numbering must be given, it is [renumber_example]. *)





Lemma missing_name_fails_before_any_change_witness :
  exists e, export_workbook renumber_example wb_two_sheets
              (range_index [mk_row "Data" (Some "Raw Data")])
            = Failed e wb_two_sheets.
Proof.
  destruct (missing_name_fails_before_any_change renumber_example) as (Hfails & _).
  apply Hfails. exists 1. split; [simpl; lia | exact I].
Defined.

(** C6, as stated, fails on a table with a row more than the workbook has
    sheets: its keys are not the titles of the workbook, and the handler
    renames the sheet and saves the workbook, whatever the numbering. *)
Lemma extra_row_does_not_fail :
  map Original_Name rows_extra_row = ["A"; "B"]
  /\ map title wb_one_sheet = ["A"]
  /\ (forall renumber,
        export_workbook renumber wb_one_sheet df_extra_row
        = Saved [ mk_sheet "X" "visible" [[formula "A1" "=X!B1+1"; plain "B1" 3]] ]).
Proof. repeat split; reflexivity. Qed.

Lemma title_lookup_never_fails_witness :
  (forall sheet, In sheet wb_two_sheets ->
                 dict_get mapping_bad_name (title sheet) <> None)
  /\ (forall e,
        snd (update_titles renumber_example mapping_bad_name wb_two_sheets) = Some e ->
        e = ValueError)
  /\ (snd (update_titles renumber_example mapping_bad_name wb_two_sheets) = None
      <-> forall sheet, In sheet wb_two_sheets ->
            exists new_title, dict_get mapping_bad_name (title sheet) = Some new_title
                              /\ valid_title new_title = true).
Proof.
  apply (title_lookup_never_fails renumber_example wb_two_sheets df_bad_name).
  reflexivity.
Defined.


Lemma first_missing_name_decides_the_exception_witness :
  export_workbook renumber_example wb_two_sheets df_row_deleted
  = Failed KeyError wb_two_sheets.
Proof.
  apply (first_missing_name_decides_the_exception renumber_example
           wb_two_sheets df_row_deleted 1).
  - simpl. lia.
  - intros j Hj. assert (j = 0) as -> by lia. simpl. discriminate.
  - exact I.
Defined.

Lemma saved_workbook_is_rewritten_cell_by_cell_witness :
  exists mapping wb1,
    collect_names wb_totals 0 df_totals [] = inl mapping
    /\ update_titles renumber_example mapping wb_totals = (wb1, None)
    /\ Forall2 (fun sheet sheet1 =>
                  sheet_state sheet1 = sheet_state sheet /\ rows sheet1 = rows sheet)
               wb_totals wb1
    /\ [ mk_sheet "Sum" "visible" [[plain "A1" 1]];
         mk_sheet "Check" "visible" [[plain "A1" 2]];
         mk_sheet "Report" "visible" [[formula "A1" "=Sum!'!A1"]] ]
       = map (fun sheet1 =>
                mk_sheet (title sheet1) (sheet_state sheet1)
                         (map (map (rewritten_cell mapping)) (rows sheet1))) wb1.
Proof.
  apply (saved_workbook_is_rewritten_cell_by_cell renumber_example wb_totals df_totals).
  reflexivity.
Defined.

